(** * GeoDrink: the geospatial engine, embedded and verified

    A shallow embedding of the three utility files of the application:

    - [src/utils/gpx-parser.ts]   (module [GpxParser]),
    - the cache manager           (module [CacheManager]),
    - the Overpass client         (module [Overpass]).

    Conventions for JavaScript numbers.  A JavaScript [number] that is read
    from a decimal text (a coordinate, a bound, a buffer distance) and is only
    added, multiplied, divided, compared or rounded is a rational [Q]: the
    functions on it are executable.  A [number] that went through [Math.sin],
    [Math.cos], [Math.sqrt] or [Math.atan2] (every great-circle distance) is a
    real [R].  Arithmetic is exact: binary64 rounding and the sign of zero are
    not modelled.  [Infinity] and [NaN] are explicit constructors at the places
    where the program produces them ([parseFloat], the [Infinity] initial value
    of a running minimum).  The argument of [Math.sqrt] in the haversine
    formula is between 0 and 1, where [sqrt] on [R] is the square root.

    Where exact arithmetic and binary64 part.  For two nearly antipodal points
    the haversine term can round above 1, and the code then returns [NaN]; a
    route read from a file can have an infinite coordinate, and every
    distance to it is [NaN].  The routes and nodes of the Overpass client are
    modelled with finite coordinates, and the properties about the values of
    its distances are stated on the inputs of module [Domain] (points within
    a quarter turn of each other), where the term is at most 3/4.  Two
    distances that are equal as reals can differ in their last bits: nothing
    is stated about which of two equally near segments the code picks, except
    at the start of the route, where the distance is exactly 0. *)

From Stdlib Require Import ZArith QArith Qround Reals Qreals Lra Lia String Ascii List.
From Stdlib Require Import Permutation.
From Stdlib Require Import Psatz Sorted.
From stdpp Require Import gmap strings list fin_maps pretty.

Import ListNotations.
Local Open Scope string_scope.

(** ** JavaScript values shared by the three files *)

Module JS.

(** A real-valued [number] that may still be the initial [Infinity] of a
    running minimum. *)
Inductive xreal : Type :=
| Infinity : xreal
| Finite : R -> xreal.

(** [d < m] for [d] finite. *)
Definition lt_xreal (d : R) (m : xreal) : bool :=
  match m with
  | Infinity => true
  | Finite m' => if Rlt_dec d m' then true else false
  end.

(** [m > b] for [b] finite. *)
Definition gt_xreal (m : xreal) (b : R) : bool :=
  match m with
  | Infinity => true
  | Finite m' => if Rlt_dec b m' then true else false
  end.

(** [Math.min(m, d)] for [d] finite. *)
Definition Math_min_xreal (m : xreal) (d : R) : xreal :=
  match m with
  | Infinity => Finite d
  | Finite m' => Finite (Rmin m' d)
  end.

(** [Math.min] and [Math.max] on rationals. *)
Definition Math_min (a b : Q) : Q := if Qle_bool a b then a else b.
Definition Math_max (a b : Q) : Q := if Qle_bool a b then b else a.

(** [a === 0] on rationals. *)
Definition is_zero (a : Q) : bool := Qeq_bool a 0.

(** A string is truthy when it is not empty. *)
Definition truthy_string (s : string) : bool :=
  match s with
  | EmptyString => false
  | String _ _ => true
  end.

(** [s.split(sep)] for a one-character separator: always at least one piece. *)
Fixpoint split (sep : ascii) (s : string) : list string :=
  match s with
  | EmptyString => [EmptyString]
  | String c rest =>
      if Ascii.eqb c sep then EmptyString :: split sep rest
      else match split sep rest with
           | [] => [String c EmptyString]
           | piece :: pieces => String c piece :: pieces
           end
  end.

(** [Math.atan2(y, x)] on reals. *)
Definition atan2 (y x : R) : R :=
  if Rlt_dec 0 x then atan (y / x)
  else if Rlt_dec x 0 then
    (if Rle_dec 0 y then atan (y / x) + PI else atan (y / x) - PI)
  else if Rlt_dec 0 y then PI / 2
  else if Rlt_dec y 0 then - (PI / 2)
  else 0.

End JS.

(** ** Great-circle distance (the same function appears in both
       [gpx-parser.ts] and the Overpass client) *)

Module Haversine.

Local Open Scope R_scope.

Definition calculateDistance (lat1 lon1 lat2 lon2 : Q) : R :=
  let R_ := 6371000 in
  let dLat := Q2R (lat2 - lat1) * PI / 180 in
  let dLon := Q2R (lon2 - lon1) * PI / 180 in
  let a := sin (dLat / 2) * sin (dLat / 2) +
           cos (Q2R lat1 * PI / 180) * cos (Q2R lat2 * PI / 180) *
           sin (dLon / 2) * sin (dLon / 2) in
  let c := 2 * JS.atan2 (sqrt a) (sqrt (1 - a)) in
  R_ * c.

End Haversine.

(** ** [src/utils/gpx-parser.ts] *)

Module GpxParser.

(** The result of [parseFloat]: the only place of the program where [NaN]
    and the two infinities enter. *)
Inductive number : Type :=
| NaN : number
| PosInfinity : number
| NegInfinity : number
| Num : Q -> number.

Definition isNaN (x : number) : bool :=
  match x with
  | NaN => true
  | _ => false
  end.

Definition isFinite (x : number) : bool :=
  match x with
  | Num _ => true
  | _ => false
  end.

Definition negate (x : number) : number :=
  match x with
  | NaN => NaN
  | PosInfinity => NegInfinity
  | NegInfinity => PosInfinity
  | Num q => Num (- q)
  end.

Definition Math_min (a b : number) : number :=
  match a, b with
  | NaN, _ => NaN
  | _, NaN => NaN
  | NegInfinity, _ => NegInfinity
  | _, NegInfinity => NegInfinity
  | PosInfinity, x => x
  | x, PosInfinity => x
  | Num p, Num q => Num (JS.Math_min p q)
  end.

Definition Math_max (a b : number) : number :=
  match a, b with
  | NaN, _ => NaN
  | _, NaN => NaN
  | PosInfinity, _ => PosInfinity
  | _, PosInfinity => PosInfinity
  | NegInfinity, x => x
  | x, NegInfinity => x
  | Num p, Num q => Num (JS.Math_max p q)
  end.

(** *** [parseFloat] (ECMAScript: trim leading white space, then the longest
        prefix that is a [StrDecimalLiteral]; [NaN] when there is none). *)

(** White space among the code units below 256. *)
Definition is_white (c : ascii) : bool :=
  let n := nat_of_ascii c in
  ((9 <=? n)%nat && (n <=? 13)%nat) || (n =? 32)%nat || (n =? 160)%nat.

Fixpoint trim_start (s : string) : string :=
  match s with
  | String c rest => if is_white c then trim_start rest else s
  | EmptyString => s
  end.

Definition digit_of (c : ascii) : option Z :=
  let n := Z.of_nat (nat_of_ascii c) in
  if ((48 <=? n) && (n <=? 57))%Z then Some (n - 48)%Z else None.

(** The longest run of decimal digits at the front of [s], read after the
    digits already accumulated in [acc]: value, number of digits read, rest. *)
Fixpoint read_digits (s : string) (acc : Z) (count : nat) : Z * nat * string :=
  match s with
  | String c rest =>
      match digit_of c with
      | Some d => read_digits rest (10 * acc + d)%Z (S count)
      | None => (acc, count, s)
      end
  | EmptyString => (acc, count, s)
  end.

(** The value of an [ExponentPart] at the front of [s]; 0 when there is no
    well-formed one (the prefix then stops before it). *)
Definition read_exponent (s : string) : Z :=
  match s with
  | String c rest =>
      if Ascii.eqb c "e" || Ascii.eqb c "E" then
        let '(sign, rest') :=
          match rest with
          | String "+" r => (1%Z, r)
          | String "-" r => ((-1)%Z, r)
          | _ => (1%Z, rest)
          end in
        let '(v, n, _) := read_digits rest' 0 0 in
        if (n =? 0)%nat then 0%Z else (sign * v)%Z
      else 0%Z
  | EmptyString => 0%Z
  end.

(** [m * 10 ^ e] as a rational. *)
Definition decimal (m e : Z) : Q :=
  if (0 <=? e)%Z then inject_Z (m * 10 ^ e) else Qmake m (Z.to_pos (10 ^ (- e))).

(** A literal too large for a binary64 number is read as [Infinity]: the
    values from [2^1024 - 2^970] on round to it. *)
Definition finite_or_overflow (q : Q) : number :=
  if Qle_bool (inject_Z (2 ^ 1024 - 2 ^ 970)) q then PosInfinity else Num q.

Definition read_unsigned (s : string) : option number :=
  if String.prefix "Infinity" s then Some PosInfinity
  else
    let '(ip, ni, rest) := read_digits s 0 0 in
    match rest with
    | String "." rest' =>
        let '(m, nf, rest'') := read_digits rest' ip 0 in
        if (ni =? 0)%nat && (nf =? 0)%nat then None
        else Some (finite_or_overflow (decimal m (read_exponent rest'' - Z.of_nat nf)))
    | _ =>
        if (ni =? 0)%nat then None
        else Some (finite_or_overflow (decimal ip (read_exponent rest)))
    end.

Definition parseFloat (s : string) : number :=
  let t := trim_start s in
  let literal :=
    match t with
    | String "+" r => read_unsigned r
    | String "-" r => negate <$> read_unsigned r
    | _ => read_unsigned t
    end in
  match literal with
  | Some x => x
  | None => NaN
  end.

(** *** The document, as [DOMParser] and [querySelector(All)] present it.

    [gpxText] reaches [parseGPX] only through these queries, so the model
    takes their answers: whether a [parsererror] element exists, the [trkpt]
    and [rtept] elements in document order with their [lat] and [lon]
    attributes ([None]: [getAttribute] returns [null]), and the text content of
    the first [trk > name], [rte > name] and [metadata > name] elements. *)

Record PointElement : Type := {
  attr_lat : option string;
  attr_lon : option string
}.

Record XmlDocument : Type := {
  parsererror : bool;
  trkpts : list PointElement;
  rtepts : list PointElement;
  trk_name : option string;
  rte_name : option string;
  metadata_name : option string
}.

Record Bounds : Type := {
  north : number;
  south : number;
  east : number;
  west : number
}.

(** [totalDistance]: a real number of meters, or [NaN]. *)
Inductive distance : Type :=
| NaN_distance : distance
| Meters : R -> distance.

Record GPXData : Type := {
  name : option string;
  coordinates : list (number * number);
  bounds : Bounds;
  totalDistance : distance
}.

(** The file's own [calculateDistance]: a non-finite argument makes one of
    the sines [NaN], and so the result. *)
Definition calculateDistance (lat1 lon1 lat2 lon2 : number) : distance :=
  match lat1, lon1, lat2, lon2 with
  | Num a, Num b, Num c, Num d => Meters (Haversine.calculateDistance a b c d)
  | _, _, _, _ => NaN_distance
  end.

Definition add_distance (a b : distance) : distance :=
  match a, b with
  | Meters x, Meters y => Meters (x + y)
  | _, _ => NaN_distance
  end.

(** [getAttribute(name) || '0'] *)
Definition attribute_or_zero (a : option string) : string :=
  match a with
  | Some s => if JS.truthy_string s then s else "0"
  | None => "0"
  end.

(** The variables the [forEach] callback updates. *)
Record Scan : Type := {
  scan_coordinates : list (number * number);
  minLat : number;
  maxLat : number;
  minLon : number;
  maxLon : number
}.

Definition scan_start : Scan :=
  {| scan_coordinates := [];
     minLat := PosInfinity; maxLat := NegInfinity;
     minLon := PosInfinity; maxLon := NegInfinity |}.

(** The body of the [forEach] callback. *)
Definition visit (s : Scan) (point : PointElement) : Scan :=
  let lat := parseFloat (attribute_or_zero (attr_lat point)) in
  let lon := parseFloat (attribute_or_zero (attr_lon point)) in
  if negb (isNaN lat) && negb (isNaN lon) then
    {| scan_coordinates := scan_coordinates s ++ [(lon, lat)];
       minLat := Math_min (minLat s) lat;
       maxLat := Math_max (maxLat s) lat;
       minLon := Math_min (minLon s) lon;
       maxLon := Math_max (maxLon s) lon |}
  else s.

Definition coordinate_at (cs : list (number * number)) (i : nat) : number * number :=
  nth i cs (NaN, NaN).

(** The loop [for (let i = 1; i < coordinates.length; i++)]. *)
Definition sum_segments (cs : list (number * number)) : distance :=
  fold_left
    (fun total i =>
       add_distance total
         (calculateDistance
            (snd (coordinate_at cs (i - 1))) (fst (coordinate_at cs (i - 1)))
            (snd (coordinate_at cs i)) (fst (coordinate_at cs i))))
    (seq 1 (length cs - 1)) (Meters 0).

(** [a?.textContent || b?.textContent || c?.textContent || undefined] *)
Definition first_name (a b c : option string) : option string :=
  let truthy (o : option string) :=
    match o with
    | Some s => if JS.truthy_string s then Some s else None
    | None => None
    end in
  match truthy a with
  | Some s => Some s
  | None => match truthy b with
            | Some s => Some s
            | None => truthy c
            end
  end.

(** [parseGPX]: [None] is the [null] returned from the [catch] block. *)
Definition parseGPX (xmlDoc : XmlDocument) : option GPXData :=
  if parsererror xmlDoc then None
  else if (length (trkpts xmlDoc) =? 0)%nat && (length (rtepts xmlDoc) =? 0)%nat then None
  else
    let points :=
      if (0 <? length (trkpts xmlDoc))%nat then trkpts xmlDoc else rtepts xmlDoc in
    let s := fold_left visit points scan_start in
    if (length (scan_coordinates s) =? 0)%nat then None
    else
      Some {| name := first_name (trk_name xmlDoc) (rte_name xmlDoc) (metadata_name xmlDoc);
              coordinates := scan_coordinates s;
              bounds := {| north := maxLat s; south := minLat s;
                           east := maxLon s; west := minLon s |};
              totalDistance := sum_segments (scan_coordinates s) |}.

End GpxParser.

(** ** The declarations of [@/types] used by the cache and the Overpass
       client.  A route that reaches them has finite coordinates. *)

Module Types.

Record Bounds : Type := {
  north : Q;
  south : Q;
  east : Q;
  west : Q
}.

Record GPXData : Type := {
  name : option string;
  coordinates : list (Q * Q);
  bounds : Bounds;
  totalDistance : R
}.

Inductive WaterPointType : Type :=
| fountain | well | spring | tap | other.

Record WaterPoint : Type := {
  id : string;
  lat : Q;
  lon : Q;
  tags : gmap string string;
  distanceFromStart : R;
  distanceFromRoute : JS.xreal;
  type : WaterPointType
}.

Record CurrentPosition : Type := {
  position_lat : Q;
  position_lon : Q;
  distanceAlongRoute : R
}.

Record Filters : Type := {
  drinking_water : option (list string);
  exclude_tags : option (list string);
  include_types : option (list string);
  access : option (list string)
}.

Record WaterFilterPreset : Type := {
  preset_id : string;
  preset_name : string;
  description : string;
  filters : Filters
}.

End Types.

(** ** The cache manager *)

Module CacheManager.

Import Types.

Definition CACHE_PREFIX : string := "geodrink_cache_".
Definition CACHE_DURATION : Z := 60 * 60 * 1000.

(** *** [Number.prototype.toFixed] *)

(** The integer [n] for which [n / 10^f - x] is as close to zero as possible,
    the larger one when there are two ([x] is not negative here). *)
Definition nearest_scaled (x : Q) (f : nat) : Z :=
  Qfloor (x * inject_Z (10 ^ Z.of_nat f) + (1 # 2)).

Fixpoint zeros (n : nat) : string :=
  match n with
  | O => ""
  | S n' => String "0" (zeros n')
  end.

(** The digits of [n] with a decimal point before the last [f] of them. *)
Definition place_point (n : Z) (f : nat) : string :=
  let m := if (n =? 0)%Z then "0" else pretty n in
  if (f =? 0)%nat then m
  else
    let k := String.length m in
    let m' := if (k <=? f)%nat then zeros (f + 1 - k) ++ m else m in
    let k' := String.length m' in
    substring 0 (k' - f) m' ++ "." ++ substring (k' - f) f m'.

(** *** Entries and storage *)

Record CacheEntry (T : Type) : Type := {
  data : T;
  timestamp : Z;
  entry_bounds : string;
  entry_bufferDistance : Q
}.

Arguments data {T} _.
Arguments timestamp {T} _.
Arguments entry_bounds {T} _.
Arguments entry_bufferDistance {T} _.

Section Environment.

(** [Number::toString], the rendering of a number in a template string. *)
Variable numberToString : Q -> string.

Definition toFixed (x : Q) (f : nat) : string :=
  let negative := negb (Qle_bool 0 x) in
  let s := if negative then "-" else "" in
  let x' := if negative then (- x)%Q else x in
  if Qle_bool (inject_Z (10 ^ 21)) x' then s ++ numberToString x'
  else s ++ place_point (nearest_scaled x' f) f.

Definition generateCacheKey (bounds : Bounds) (bufferDistance : Q) : string :=
  let boundsStr :=
    toFixed (north bounds) 4 ++ "_" ++ toFixed (south bounds) 4 ++ "_" ++
    toFixed (east bounds) 4 ++ "_" ++ toFixed (west bounds) 4 in
  CACHE_PREFIX ++ boundsStr ++ "_" ++ numberToString bufferDistance.

(** [JSON.stringify] and [JSON.parse] at the types the cache uses them.
    [JSON_parse] is [None] when [JSON.parse] throws. *)
Variable T : Type.
Variable JSON_stringify_bounds : Bounds -> string.
Variable JSON_stringify : CacheEntry T -> string.
Variable JSON_parse : string -> option (CacheEntry T).

(** [localStorage] is a finite map from keys to strings; [now] is the value
    of [Date.now()] at the call.  The storage has no quota: [setItem] always
    succeeds, and the [catch] block of [set] is never entered.  The [catch]
    block of [get] is the answer to a [JSON.parse] that throws. *)

Definition set (localStorage : gmap string string) (now : Z)
    (key : string) (data : T) (bounds : Bounds) (bufferDistance : Q)
    : gmap string string :=
  let entry :=
    {| data := data; timestamp := now;
       entry_bounds := JSON_stringify_bounds bounds;
       entry_bufferDistance := bufferDistance |} in
  <[key := JSON_stringify entry]> localStorage.

Definition get (localStorage : gmap string string) (now : Z) (key : string)
    : option T * gmap string string :=
  match localStorage !! key with
  | None => (None, localStorage)
  | Some item =>
      if negb (JS.truthy_string item) then (None, localStorage)
      else
        match JSON_parse item with
        | None => (None, localStorage)
        | Some entry =>
            if (now - timestamp entry >? CACHE_DURATION)%Z
            then (None, delete key localStorage)
            else (Some (data entry), localStorage)
        end
  end.

End Environment.

(** [Object.keys(localStorage)] *)
Definition keys (localStorage : gmap string string) : list string :=
  (map_to_list localStorage).*1.

Definition clear (localStorage : gmap string string) : gmap string string :=
  fold_left
    (fun st key => if String.prefix CACHE_PREFIX key then delete key st else st)
    (keys localStorage) localStorage.

Record CacheInfo : Type := {
  totalEntries : nat;
  totalSize : nat
}.

Definition getCacheInfo (localStorage : gmap string string) : CacheInfo :=
  fold_left
    (fun info key =>
       if String.prefix CACHE_PREFIX key then
         {| totalEntries := S (totalEntries info);
            totalSize :=
              match localStorage !! key with
              | Some item =>
                  if JS.truthy_string item then totalSize info + String.length item
                  else totalSize info
              | None => totalSize info
              end |}
       else info)
    (keys localStorage) {| totalEntries := 0; totalSize := 0 |}.

End CacheManager.

(** ** The Overpass client: presets, query, classification and filtering,
       distances along the route *)

Module Overpass.

Import Types.
Import Haversine.

Definition potable_only : WaterFilterPreset :=
  {| preset_id := "potable-only";
     preset_name := "Potable Water Only";
     description := "Safe drinking water sources only";
     filters := {| drinking_water := Some ["yes"];
                   exclude_tags := Some ["fee=yes"];
                   include_types := None;
                   access := None |} |}.

Definition free_potable : WaterFilterPreset :=
  {| preset_id := "free-potable";
     preset_name := "Free Potable Water";
     description := "Free drinking water only";
     filters := {| drinking_water := Some ["yes"];
                   exclude_tags := Some ["fee=yes"];
                   include_types := None;
                   access := None |} |}.

Definition all_potable : WaterFilterPreset :=
  {| preset_id := "all-potable";
     preset_name := "All Potable Water";
     description := "All drinking water (including paid)";
     filters := {| drinking_water := Some ["yes"];
                   exclude_tags := None;
                   include_types := None;
                   access := None |} |}.

Definition emergency_sources : WaterFilterPreset :=
  {| preset_id := "emergency-sources";
     preset_name := "Emergency Sources";
     description := "All water sources including wells/springs";
     filters := {| drinking_water := None;
                   exclude_tags := None;
                   include_types := Some ["fountain"; "well"; "spring"; "tap"];
                   access := Some ["public"; "yes"] |} |}.

Definition all_sources : WaterFilterPreset :=
  {| preset_id := "all-sources";
     preset_name := "All Water Sources";
     description := "All water points (including non-potable)";
     filters := {| drinking_water := None;
                   exclude_tags := None;
                   include_types := None;
                   access := None |} |}.

Definition WATER_FILTER_PRESETS : list WaterFilterPreset :=
  [potable_only; free_potable; all_potable; emergency_sources; all_sources].

(** *** Geometry *)

Definition getClosestPointOnSegment (point segmentStart segmentEnd : Q * Q) : Q * Q :=
  let '(px, py) := point in
  let '(ax, ay) := segmentStart in
  let '(bx, by_) := segmentEnd in
  let dx := (bx - ax)%Q in
  let dy := (by_ - ay)%Q in
  if JS.is_zero dx && JS.is_zero dy then segmentStart
  else
    let t := JS.Math_max 0 (JS.Math_min 1
               (((px - ax) * dx + (py - ay) * dy) / (dx * dx + dy * dy)))%Q in
    ((ax + t * dx)%Q, (ay + t * dy)%Q).

(** [coordinates[i]]; every index the program uses is inside the array. *)
Definition coordinate_at (gpxData : GPXData) (i : nat) : Q * Q :=
  nth i (coordinates gpxData) (0%Q, 0%Q).

(** The three variables of the first loop of [findDistanceAlongRoute]. *)
Record Closest : Type := {
  minDistance : JS.xreal;
  closestSegmentIndex : nat;
  closestPointOnSegment : Q * Q
}.

Definition closest_step (lat lon : Q) (gpxData : GPXData) (s : Closest) (i : nat) : Closest :=
  let segmentStart := coordinate_at gpxData i in
  let segmentEnd := coordinate_at gpxData (i + 1) in
  let closestPoint := getClosestPointOnSegment (lon, lat) segmentStart segmentEnd in
  let distance := calculateDistance lat lon (snd closestPoint) (fst closestPoint) in
  if JS.lt_xreal distance (minDistance s) then
    {| minDistance := JS.Finite distance;
       closestSegmentIndex := i;
       closestPointOnSegment := closestPoint |}
  else s.

Definition findDistanceAlongRoute (lat lon : Q) (gpxData : GPXData) : R :=
  if (length (coordinates gpxData) =? 0)%nat then 0%R
  else
    let s :=
      fold_left (closest_step lat lon gpxData)
        (seq 0 (length (coordinates gpxData) - 1))
        {| minDistance := JS.Infinity;
           closestSegmentIndex := 0;
           closestPointOnSegment := (0%Q, 0%Q) |} in
    let distanceAlongRoute :=
      fold_left
        (fun total i =>
           (total + calculateDistance
                      (snd (coordinate_at gpxData i)) (fst (coordinate_at gpxData i))
                      (snd (coordinate_at gpxData (i + 1)))
                      (fst (coordinate_at gpxData (i + 1))))%R)
        (seq 0 (closestSegmentIndex s)) 0%R in
    (distanceAlongRoute +
     calculateDistance
       (snd (coordinate_at gpxData (closestSegmentIndex s)))
       (fst (coordinate_at gpxData (closestSegmentIndex s)))
       (snd (closestPointOnSegment s)) (fst (closestPointOnSegment s)))%R.

Definition calculateDistanceFromCurrentPosition (waterPoint : WaterPoint)
    (currentPosition : option CurrentPosition) (gpxData : GPXData) : R :=
  match currentPosition with
  | None => distanceFromStart waterPoint
  | Some position =>
      let waterPointDistanceAlongRoute :=
        findDistanceAlongRoute (lat waterPoint) (lon waterPoint) gpxData in
      Rabs (waterPointDistanceAlongRoute - distanceAlongRoute position)
  end.

Definition findCurrentPositionOnRoute (userLat userLon : Q) (gpxData : option GPXData)
    : option CurrentPosition :=
  match gpxData with
  | None => None
  | Some route =>
      if (length (coordinates route) =? 0)%nat then None
      else Some {| position_lat := userLat;
                   position_lon := userLon;
                   distanceAlongRoute := findDistanceAlongRoute userLat userLon route |}
  end.

Definition calculateDistanceFromStart (lat lon : Q) (gpxData : GPXData) : R :=
  match coordinates gpxData with
  | [] => 0%R
  | startPoint :: _ => calculateDistance (snd startPoint) (fst startPoint) lat lon
  end.

Definition calculateMinDistanceFromRoute (lat lon : Q) (gpxData : GPXData) : JS.xreal :=
  fold_left
    (fun minDistance coord =>
       let distance := calculateDistance (snd coord) (fst coord) lat lon in
       JS.Math_min_xreal minDistance distance)
    (coordinates gpxData) JS.Infinity.

(** *** Classification and filtering of one node *)

(** An element of the response, as the JSON gives it. *)
Record Element : Type := {
  element_type : string;
  element_lat : option Q;
  element_lon : option Q;
  element_tags : option (gmap string string);
  element_id : Z
}.

(** The parameter type of [processWaterPoint]. *)
Record Node : Type := {
  node_lat : Q;
  node_lon : Q;
  node_tags : option (gmap string string);
  node_id : Z
}.

(** [tags[key] === value] *)
Definition tag_is (tags : gmap string string) (key value : string) : bool :=
  bool_decide (tags !! key = Some value).

(** The chain "Determine water point type". *)
Definition classify (tags : gmap string string) : WaterPointType :=
  if tag_is tags "amenity" "drinking_water" then fountain
  else if tag_is tags "amenity" "fountain" then fountain
  else if tag_is tags "amenity" "water_point" then tap
  else if tag_is tags "amenity" "water_tap" then tap
  else if tag_is tags "man_made" "water_well" then well
  else if tag_is tags "natural" "spring" then spring
  else other.

(** The names a plain object inherits from [Object.prototype]: for such a
    key that the record does not carry itself, [tags[key]] is a function or
    an object, which is neither a string nor [undefined]. *)
Definition Object_prototype_members : list string :=
  ["constructor"; "hasOwnProperty"; "isPrototypeOf"; "propertyIsEnumerable";
   "toLocaleString"; "toString"; "valueOf"; "__proto__";
   "__defineGetter__"; "__defineSetter__"; "__lookupGetter__"; "__lookupSetter__"].

Definition inherited (key : string) : bool :=
  existsb (String.eqb key) Object_prototype_members.

(** [const [key, value] = excludeTag.split('='); tags[key] === value]:
    [value] is [undefined] when [excludeTag] has no ['=']. *)
Definition matches_exclude (tags : gmap string string) (excludeTag : string) : bool :=
  let parts := JS.split "=" excludeTag in
  let key := hd "" parts in
  let value := parts !! 1%nat in
  match tags !! key with
  | Some own => bool_decide (Some own = value)
  | None => if inherited key then false else bool_decide (None = value)
  end.

Definition exclude_rejects (f : Filters) (tags : gmap string string) : bool :=
  match exclude_tags f with
  | Some excluded => existsb (matches_exclude tags) excluded
  | None => false
  end.

(** [allowed.includes(v)] *)
Definition includes (allowed : list string) (v : string) : bool :=
  existsb (String.eqb v) allowed.

(** "Filter by access if specified" *)
Definition access_rejects (f : Filters) (tags : gmap string string) : bool :=
  match access f, tags !! "access" with
  | Some allowed, Some v => JS.truthy_string v && negb (includes allowed v)
  | _, _ => false
  end.

(** "Filter by drinking water quality if specified" *)
Definition drinking_water_rejects (f : Filters) (tags : gmap string string) : bool :=
  match drinking_water f, tags !! "drinking_water" with
  | Some allowed, Some drinkingWater =>
      JS.truthy_string drinkingWater && negb (includes allowed drinkingWater)
  | _, _ => false
  end.

Definition processWaterPoint (element : Node) (gpxData : GPXData)
    (bufferDistance : Q) (preset : WaterFilterPreset) : option WaterPoint :=
  let lat := node_lat element in
  let lon := node_lon element in
  let tags := default ∅ (node_tags element) in
  let type := classify tags in
  let distanceFromStart := calculateDistanceFromStart lat lon gpxData in
  let distanceFromRoute := calculateMinDistanceFromRoute lat lon gpxData in
  if JS.gt_xreal distanceFromRoute (Q2R bufferDistance) then None
  else if exclude_rejects (filters preset) tags then None
  else if access_rejects (filters preset) tags then None
  else if drinking_water_rejects (filters preset) tags then None
  else Some {| id := pretty (node_id element);
               lat := lat;
               lon := lon;
               tags := tags;
               distanceFromStart := distanceFromStart;
               distanceFromRoute := distanceFromRoute;
               type := type |}.

(** *** The query and the orchestration *)

Definition quote : string := String "034" EmptyString.
Definition newline : string := String "010" EmptyString.

(** [queries.join(sep)] *)
Fixpoint join (sep : string) (pieces : list string) : string :=
  match pieces with
  | [] => ""
  | [piece] => piece
  | piece :: rest => piece ++ sep ++ join sep rest
  end.

(** [node["key"="value"]] and its variants, up to the bounding box. *)
Definition tag_equals (key value : string) : string :=
  "[" ++ quote ++ key ++ quote ++ "=" ++ quote ++ value ++ quote ++ "]".
Definition tag_differs (key value : string) : string :=
  "[" ++ quote ++ key ++ quote ++ "!=" ++ quote ++ value ++ quote ++ "]".

(** The stable sort of [Array.prototype.sort] with the comparator
    [(a, b) => a.distanceFromStart - b.distanceFromStart]. *)
Fixpoint insert_sorted (a : WaterPoint) (sorted : list WaterPoint) : list WaterPoint :=
  match sorted with
  | [] => [a]
  | b :: rest =>
      if Rle_dec (distanceFromStart a) (distanceFromStart b)
      then a :: b :: rest
      else b :: insert_sorted a rest
  end.

Definition sort (waterPoints : list WaterPoint) : list WaterPoint :=
  foldr insert_sorted [] waterPoints.

(** What [fetch] and [response.json()] can do. *)
Inductive ResponseBody : Type :=
| MalformedBody : ResponseBody
| Body : option (list Element) -> ResponseBody.

Inductive FetchResult : Type :=
| FetchRejected : FetchResult
| Response : bool -> Z -> ResponseBody -> FetchResult.

(** The fetch did not deliver a payload: the promise was rejected, the
    status is not a success, or the body is not the JSON the loop can read. *)
Definition fetch_failed (r : FetchResult) : bool :=
  match r with
  | FetchRejected => true
  | Response false _ _ => true
  | Response true _ MalformedBody => true
  | Response true _ (Body _) => false
  end.

(** [WATER_FILTER_PRESETS.find(p => p.id === filterPreset) || WATER_FILTER_PRESETS[0]] *)
Definition select_preset (filterPreset : string) : WaterFilterPreset :=
  match find (fun p => String.eqb (preset_id p) filterPreset) WATER_FILTER_PRESETS with
  | Some p => p
  | None => nth 0 WATER_FILTER_PRESETS potable_only
  end.

(** A number is truthy when it is present and not zero. *)
Definition truthy_number (x : option Q) : bool :=
  match x with
  | Some q => negb (JS.is_zero q)
  | None => false
  end.

Section Environment.

Variable numberToString : Q -> string.
Variable JSON_stringify_bounds : Bounds -> string.
Variable JSON_stringify : CacheManager.CacheEntry (list WaterPoint) -> string.
Variable JSON_parse : string -> option (CacheManager.CacheEntry (list WaterPoint)).

(** The remote service: the outcome of posting [query] to [OVERPASS_URL]. *)
Variable fetch : string -> FetchResult.

Definition buildOverpassQuery (gpxData : GPXData) (bufferDistance : Q)
    (preset : WaterFilterPreset) : string :=
  let padding := (bufferDistance / 111000)%Q in
  let bbox :=
    numberToString (south (bounds gpxData) - padding)%Q ++ "," ++
    numberToString (west (bounds gpxData) - padding)%Q ++ "," ++
    numberToString (north (bounds gpxData) + padding)%Q ++ "," ++
    numberToString (east (bounds gpxData) + padding)%Q in
  let potable :=
    match drinking_water (filters preset) with
    | Some allowed => includes allowed "yes"
    | None => false
    end in
  let queries :=
    if potable then
      [ "node" ++ tag_equals "amenity" "drinking_water" ++
          tag_differs "drinking_water" "no" ++ "(" ++ bbox ++ ");";
        "node" ++ tag_equals "amenity" "fountain" ++
          tag_equals "drinking_water" "yes" ++ "(" ++ bbox ++ ");";
        "node" ++ tag_equals "amenity" "water_point" ++
          tag_equals "drinking_water" "yes" ++ "(" ++ bbox ++ ");";
        "node" ++ tag_equals "amenity" "water_tap" ++
          tag_equals "drinking_water" "yes" ++ "(" ++ bbox ++ ");" ]
    else
      [ "node" ++ tag_equals "amenity" "drinking_water" ++ "(" ++ bbox ++ ");";
        "node" ++ tag_equals "amenity" "fountain" ++ "(" ++ bbox ++ ");";
        "node" ++ tag_equals "amenity" "water_point" ++ "(" ++ bbox ++ ");";
        "node" ++ tag_equals "man_made" "water_well" ++ "(" ++ bbox ++ ");";
        "node" ++ tag_equals "natural" "spring" ++ "(" ++ bbox ++ ");";
        "node" ++ tag_equals "amenity" "water_tap" ++ "(" ++ bbox ++ ");" ] in
  newline ++ "    [out:json][timeout:30];" ++
  newline ++ "    (" ++
  newline ++ "      " ++ join (newline ++ "      ") queries ++
  newline ++ "    );" ++
  newline ++ "    out geom;" ++
  newline ++ "  ".

(** The loop "Process nodes (points)". *)
Definition process_elements (elements : list Element) (gpxData : GPXData)
    (bufferDistance : Q) (preset : WaterFilterPreset) : list WaterPoint :=
  fold_left
    (fun (waterPoints : list WaterPoint) element =>
       if String.eqb (element_type element) "node"
          && truthy_number (element_lat element)
          && truthy_number (element_lon element)
       then
         match processWaterPoint
                 {| node_lat := default 0%Q (element_lat element);
                    node_lon := default 0%Q (element_lon element);
                    node_tags := element_tags element;
                    node_id := element_id element |}
                 gpxData bufferDistance preset with
         | Some waterPoint => (waterPoints ++ [waterPoint])%list
         | None => waterPoints
         end
       else waterPoints)
    elements [].

(** [findWaterPoints]: the list it resolves to and the storage it leaves.
    [now] is the clock when the cache is read, [now'] when it is written;
    the [catch] block is the three [[]] answers. *)
Definition findWaterPoints (localStorage : gmap string string) (now now' : Z)
    (gpxData : GPXData) (bufferDistance : Q) (filterPreset : string)
    : list WaterPoint * gmap string string :=
  let cacheKey :=
    CacheManager.generateCacheKey numberToString (bounds gpxData) bufferDistance
      ++ "_" ++ filterPreset in
  let '(cachedData, storage) :=
    CacheManager.get (list WaterPoint) JSON_parse localStorage now cacheKey in
  match cachedData with
  | Some cached => (cached, storage)
  | None =>
      let preset := select_preset filterPreset in
      let query := buildOverpassQuery gpxData bufferDistance preset in
      match fetch query with
      | FetchRejected => ([], storage)
      | Response ok status body =>
          if negb ok then ([], storage)
          else
            match body with
            | MalformedBody => ([], storage)
            | Body elements =>
                let waterPoints :=
                  match elements with
                  | Some es => process_elements es gpxData bufferDistance preset
                  | None => []
                  end in
                let sortedWaterPoints := sort waterPoints in
                (sortedWaterPoints,
                 CacheManager.set (list WaterPoint) JSON_stringify_bounds JSON_stringify
                   storage now' cacheKey sortedWaterPoints (bounds gpxData) bufferDistance)
            end
      end
  end.

End Environment.

End Overpass.

(** ** Predicates used to state the properties, and concrete inputs *)

Module Spec.

Import Types.

(** *** Track parsing *)

Definition parsed_lat (p : GpxParser.PointElement) : GpxParser.number :=
  GpxParser.parseFloat (GpxParser.attribute_or_zero (GpxParser.attr_lat p)).

Definition parsed_lon (p : GpxParser.PointElement) : GpxParser.number :=
  GpxParser.parseFloat (GpxParser.attribute_or_zero (GpxParser.attr_lon p)).

(** Neither the latitude nor the longitude of the point parses to [NaN]. *)
Definition retained (p : GpxParser.PointElement) : bool :=
  negb (GpxParser.isNaN (parsed_lat p)) && negb (GpxParser.isNaN (parsed_lon p)).

Definition retained_coordinates (points : list GpxParser.PointElement)
    : list (GpxParser.number * GpxParser.number) :=
  List.map (fun p => (parsed_lon p, parsed_lat p)) (List.filter retained points).

(** The box of a list of (lon, lat) pairs, and of nothing else. *)
Definition bounds_of (cs : list (GpxParser.number * GpxParser.number)) : GpxParser.Bounds :=
  {| GpxParser.north := fold_left GpxParser.Math_max (List.map snd cs) GpxParser.NegInfinity;
     GpxParser.south := fold_left GpxParser.Math_min (List.map snd cs) GpxParser.PosInfinity;
     GpxParser.east := fold_left GpxParser.Math_max (List.map fst cs) GpxParser.NegInfinity;
     GpxParser.west := fold_left GpxParser.Math_min (List.map fst cs) GpxParser.PosInfinity |}.

(** The points [parseGPX] reads: the track points, or the route points when
    there is no track point. *)
Definition points_of (xmlDoc : GpxParser.XmlDocument) : list GpxParser.PointElement :=
  if (0 <? length (GpxParser.trkpts xmlDoc))%nat
  then GpxParser.trkpts xmlDoc else GpxParser.rtepts xmlDoc.

(** *** Cache keys *)

(** [x] and [y] are below 10^21 in magnitude, on the same side of zero, and
    have the same nearest multiple of 10^-4 (ties away from zero). *)
Definition same_rounding (x y : Q) : Prop :=
  Qle_bool 0 x = Qle_bool 0 y
  /\ Qle_bool (inject_Z (10 ^ 21)) (if negb (Qle_bool 0 x) then - x else x)%Q = false
  /\ Qle_bool (inject_Z (10 ^ 21)) (if negb (Qle_bool 0 y) then - y else y)%Q = false
  /\ CacheManager.nearest_scaled (if negb (Qle_bool 0 x) then - x else x)%Q 4
     = CacheManager.nearest_scaled (if negb (Qle_bool 0 y) then - y else y)%Q 4.

Definition bounds_same_rounding (a b : Bounds) : Prop :=
  same_rounding (north a) (north b) /\ same_rounding (south a) (south b)
  /\ same_rounding (east a) (east b) /\ same_rounding (west a) (west b).

(** *** The node a water point of the response loop comes from *)

Definition from_node (elements : list Overpass.Element) (gpxData : GPXData)
    (bufferDistance : Q) (preset : WaterFilterPreset) (w : WaterPoint) : Prop :=
  exists e la lo,
    In e elements /\ Overpass.element_type e = "node" /\
    Overpass.element_lat e = Some la /\ ~ (la == 0)%Q /\
    Overpass.element_lon e = Some lo /\ ~ (lo == 0)%Q /\
    Overpass.processWaterPoint
      {| Overpass.node_lat := la; Overpass.node_lon := lo;
         Overpass.node_tags := Overpass.element_tags e;
         Overpass.node_id := Overpass.element_id e |}
      gpxData bufferDistance preset = Some w.

End Spec.

Module Examples.

Import Types.

(** An environment: [Number::toString] on integers, and a codec of cache
    entries whose payload is a text without [;]. *)
Definition integerToString (q : Q) : string := pretty (Qfloor q).

Definition text_stringify (e : CacheManager.CacheEntry string) : string :=
  pretty (CacheManager.timestamp e) ++ ";" ++
  CacheManager.entry_bounds e ++ ";" ++
  pretty (Qnum (CacheManager.entry_bufferDistance e)) ++ ";" ++
  pretty (Zpos (Qden (CacheManager.entry_bufferDistance e))) ++ ";" ++
  CacheManager.data e.

Definition read_natural (s : string) : option Z :=
  match GpxParser.read_digits s 0 0 with
  | (v, S _, EmptyString) => Some v
  | _ => None
  end.

Definition text_parse (s : string) : option (CacheManager.CacheEntry string) :=
  match JS.split ";" s with
  | [ts; b; num; den; d] =>
      match read_natural ts, read_natural num, read_natural den with
      | Some t, Some n, Some (Zpos p) =>
          Some {| CacheManager.data := d;
                  CacheManager.timestamp := t;
                  CacheManager.entry_bounds := b;
                  CacheManager.entry_bufferDistance := Qmake n p |}
      | _, _, _ => None
      end
  | _ => None
  end.

Definition bounds_text (b : Bounds) : string :=
  CacheManager.toFixed integerToString (north b) 4 ++ "," ++
  CacheManager.toFixed integerToString (south b) 4 ++ "," ++
  CacheManager.toFixed integerToString (east b) 4 ++ "," ++
  CacheManager.toFixed integerToString (west b) 4.

(** The route and the record of the example scenario. *)
Definition route_bounds : Bounds :=
  {| north := 48; south := 48; east := 2.1; west := 2 |}.

Definition route : GPXData :=
  {| name := None;
     coordinates := [(2, 48); (2.1, 48)]%Q;
     bounds := route_bounds;
     totalDistance := Haversine.calculateDistance 48 2 48 2.1 |}.

Definition potable_tags : gmap string string :=
  <["amenity" := "drinking_water"]> (<["drinking_water" := "yes"]> ∅).

Definition record : Overpass.Node :=
  {| Overpass.node_lat := 48.00005;
     Overpass.node_lon := 2.05;
     Overpass.node_tags := Some potable_tags;
     Overpass.node_id := 1 |}.

(** A node with a private access tag. *)
Definition private_well : Overpass.Node :=
  {| Overpass.node_lat := 48;
     Overpass.node_lon := 2;
     Overpass.node_tags :=
       Some (<["man_made" := "water_well"]> (<["access" := "private"]> ∅));
     Overpass.node_id := 2 |}.

(** A response with a node on latitude 0 and a node on the start of the
    route, both tagged as drinking water. *)
Definition zero_latitude_node : Overpass.Element :=
  {| Overpass.element_type := "node";
     Overpass.element_lat := Some 0%Q;
     Overpass.element_lon := Some 2%Q;
     Overpass.element_tags := Some potable_tags;
     Overpass.element_id := 7 |}.

Definition start_node : Overpass.Element :=
  {| Overpass.element_type := "node";
     Overpass.element_lat := Some 48%Q;
     Overpass.element_lon := Some 2%Q;
     Overpass.element_tags := Some potable_tags;
     Overpass.element_id := 8 |}.

Definition online (query : string) : Overpass.FetchResult :=
  Overpass.Response true 200 (Overpass.Body (Some [zero_latitude_node; start_node])).

Definition offline (query : string) : Overpass.FetchResult := Overpass.FetchRejected.

(** A codec that never finds a usable entry. *)
Definition blank_stringify (e : CacheManager.CacheEntry (list WaterPoint)) : string := "[]".
Definition blank_parse (s : string) : option (CacheManager.CacheEntry (list WaterPoint)) := None.

(** A route of one coordinate. *)
Definition single_point_route : GPXData :=
  {| name := None;
     coordinates := [(2, 48)]%Q;
     bounds := {| north := 48; south := 48; east := 2; west := 2 |};
     totalDistance := 0 |}.

(** Three bounding boxes that differ in the fifth decimal of [north]. *)
Definition box_1 : Bounds := {| north := 48.00001; south := 48; east := 2.1; west := 2 |}.
Definition box_4 : Bounds := {| north := 48.00004; south := 48; east := 2.1; west := 2 |}.
Definition box_6 : Bounds := {| north := 48.00006; south := 48; east := 2.1; west := 2 |}.

(** Track documents. *)
Definition trkpt (lat lon : string) : GpxParser.PointElement :=
  {| GpxParser.attr_lat := Some lat; GpxParser.attr_lon := Some lon |}.

Definition three_and_one : GpxParser.XmlDocument :=
  {| GpxParser.parsererror := false;
     GpxParser.trkpts :=
       [trkpt "48" "2"; trkpt "north" "3"; trkpt "49" "1"; trkpt "47" "4"];
     GpxParser.rtepts := [];
     GpxParser.trk_name := Some "Loop";
     GpxParser.rte_name := None;
     GpxParser.metadata_name := None |}.

Definition infinite_latitude : GpxParser.XmlDocument :=
  {| GpxParser.parsererror := false;
     GpxParser.trkpts := [trkpt "Infinity" "2"];
     GpxParser.rtepts := [];
     GpxParser.trk_name := None;
     GpxParser.rte_name := None;
     GpxParser.metadata_name := None |}.

End Examples.

(** ** Predicates and inputs for the properties beyond the claims *)

(** The inputs on which the code computes every distance as a number.  In
    binary64 the haversine term of two nearly antipodal points can round
    above 1, and the distance is then [NaN]; an infinite coordinate gives
    [NaN] too.  The properties about the values of distances are stated for
    points within a quarter turn of each other, which are far from that. *)

Module Domain.

(** The term [a] of [calculateDistance], whose square root and the square
    root of [1 - a] the code takes. *)
Definition haversine_term (lat1 lon1 lat2 lon2 : Q) : R :=
  (let dLat := Q2R (lat2 - lat1) * PI / 180 in
   let dLon := Q2R (lon2 - lon1) * PI / 180 in
   sin (dLat / 2) * sin (dLat / 2) +
   cos (Q2R lat1 * PI / 180) * cos (Q2R lat2 * PI / 180) *
   sin (dLon / 2) * sin (dLon / 2))%R.

(** Two points with latitudes between -90 and 90 whose latitudes, and whose
    longitudes, differ by at most 90 degrees. *)
Definition quarter_turn (lat1 lon1 lat2 lon2 : Q) : bool :=
  Qle_bool (-90) lat1 && Qle_bool lat1 90
  && Qle_bool (-90) lat2 && Qle_bool lat2 90
  && Qle_bool (-90) (lat2 - lat1) && Qle_bool (lat2 - lat1) 90
  && Qle_bool (-90) (lon2 - lon1) && Qle_bool (lon2 - lon1) 90.

(** Every vertex of the route is within a quarter turn of the point. *)
Definition near_route (lat lon : Q) (gpxData : Types.GPXData) : bool :=
  forallb (fun c => quarter_turn (snd c) (fst c) lat lon) (Types.coordinates gpxData).

(** Every two vertices of the route are within a quarter turn. *)
Definition compact_route (gpxData : Types.GPXData) : bool :=
  forallb
    (fun a =>
       forallb (fun b => quarter_turn (snd a) (fst a) (snd b) (fst b))
         (Types.coordinates gpxData))
    (Types.coordinates gpxData).

(** Every element of the response that has coordinates is within a quarter
    turn of every vertex of the route. *)
Definition near_nodes (elements : list Overpass.Element) (gpxData : Types.GPXData) : bool :=
  forallb
    (fun e =>
       match Overpass.element_lat e, Overpass.element_lon e with
       | Some la, Some lo => near_route la lo gpxData
       | _, _ => true
       end)
    elements.

(** Two coordinates read from a track are finite and within a quarter turn. *)
Definition local_pair (a b : GpxParser.number * GpxParser.number) : bool :=
  match a, b with
  | (GpxParser.Num lon1, GpxParser.Num lat1), (GpxParser.Num lon2, GpxParser.Num lat2) =>
      quarter_turn lat1 lon1 lat2 lon2
  | _, _ => false
  end.

Definition local_track (cs : list (GpxParser.number * GpxParser.number)) : bool :=
  forallb (fun a => forallb (local_pair a) cs) cs.

End Domain.

Module Order.

Import GpxParser.

(** [a <= b] on the numbers [parseFloat] gives; [NaN] compares with nothing. *)
Definition number_le (a b : number) : Prop :=
  match a, b with
  | NaN, _ => False
  | _, NaN => False
  | NegInfinity, _ => True
  | _, PosInfinity => True
  | Num p, Num q => (p <= q)%Q
  | _, _ => False
  end.

Definition finite_pair (c : number * number) : bool :=
  isFinite (fst c) && isFinite (snd c).

(** The document with other route points. *)
Definition with_rtepts (xmlDoc : XmlDocument) (other : list PointElement) : XmlDocument :=
  {| parsererror := parsererror xmlDoc;
     trkpts := trkpts xmlDoc;
     rtepts := other;
     trk_name := trk_name xmlDoc;
     rte_name := rte_name xmlDoc;
     metadata_name := metadata_name xmlDoc |}.

(** The body of the loop of [sum_segments]. *)
Definition segment_step (cs : list (number * number)) (total : distance) (i : nat) : distance :=
  add_distance total
    (calculateDistance
       (snd (coordinate_at cs (i - 1))) (fst (coordinate_at cs (i - 1)))
       (snd (coordinate_at cs i)) (fst (coordinate_at cs i))).

End Order.

Module Rules.

Import Types.

(** [a] is not farther from the start than [b]. *)
Definition start_le (a b : WaterPoint) : Prop :=
  (distanceFromStart a <= distanceFromStart b)%R.

(** The preset with another list of accepted types. *)
Definition with_include_types (p : WaterFilterPreset) (types : option (list string))
    : WaterFilterPreset :=
  {| preset_id := preset_id p;
     preset_name := preset_name p;
     description := description p;
     filters := {| drinking_water := drinking_water (filters p);
                   exclude_tags := exclude_tags (filters p);
                   include_types := types;
                   access := access (filters p) |} |}.

(** The character [c] does not occur in [s]. *)
Fixpoint free_of (c : ascii) (s : string) : bool :=
  match s with
  | EmptyString => true
  | String d rest => negb (Ascii.eqb d c) && free_of c rest
  end.

End Rules.

Module Along.

Import Types Overpass.

(** The nearest point to (lon, lat) on the segment that starts at index [i]. *)
Definition projection (lat lon : Q) (gpxData : GPXData) (i : nat) : Q * Q :=
  getClosestPointOnSegment (lon, lat) (coordinate_at gpxData i) (coordinate_at gpxData (i + 1)).

(** Its great-circle distance to (lon, lat). *)
Definition projection_distance (lat lon : Q) (gpxData : GPXData) (i : nat) : R :=
  Haversine.calculateDistance lat lon
    (snd (projection lat lon gpxData i)) (fst (projection lat lon gpxData i)).

(** The length of the route up to the vertex of index [i]. *)
Definition length_before (gpxData : GPXData) (i : nat) : R :=
  fold_left
    (fun total j =>
       (total + Haversine.calculateDistance
                  (snd (coordinate_at gpxData j)) (fst (coordinate_at gpxData j))
                  (snd (coordinate_at gpxData (j + 1)))
                  (fst (coordinate_at gpxData (j + 1))))%R)
    (seq 0 i) 0%R.

End Along.

(** ** The sorted list of the drawer and of the table
       ([src/components/water-points-drawer.tsx], and the same code in the
       table component) *)

Module Drawer.

Import Types.

(** What the comparator of [sortedWaterPoints] subtracts. *)
Definition sort_key (currentPosition : option CurrentPosition) (gpxData : GPXData)
    (point : WaterPoint) : R :=
  match currentPosition with
  | Some _ => Overpass.calculateDistanceFromCurrentPosition point currentPosition gpxData
  | None => distanceFromStart point
  end.

(** The stable sort of [[...waterPoints].sort((a, b) => key(a) - key(b))]. *)
Fixpoint insert_by (key : WaterPoint -> R) (a : WaterPoint) (sorted : list WaterPoint)
    : list WaterPoint :=
  match sorted with
  | [] => [a]
  | b :: rest =>
      if Rle_dec (key a) (key b) then a :: b :: rest
      else b :: insert_by key a rest
  end.

Definition sort_by (key : WaterPoint -> R) (waterPoints : list WaterPoint) : list WaterPoint :=
  foldr (insert_by key) [] waterPoints.

Definition sortedWaterPoints (gpxData : option GPXData) (waterPoints : list WaterPoint)
    (currentPosition : option CurrentPosition) : list WaterPoint :=
  match gpxData with
  | None => waterPoints
  | Some route => sort_by (sort_key currentPosition route) waterPoints
  end.

(** [a] comes before [b] for the key. *)
Definition key_le (key : WaterPoint -> R) (a b : WaterPoint) : Prop :=
  (key a <= key b)%R.

End Drawer.

(** ** The labels of [src/utils/map-utils.ts] *)

Module MapUtils.

Import Types.

(** The string of a [WaterPoint['type']]. *)
Definition type_name (t : WaterPointType) : string :=
  match t with
  | fountain => "fountain"
  | well => "well"
  | spring => "spring"
  | tap => "tap"
  | other => "other"
  end.

(** [c.toUpperCase()] on a code unit below 128. *)
Definition toUpperCase (c : ascii) : ascii :=
  let n := nat_of_ascii c in
  if ((97 <=? n) && (n <=? 122))%nat then ascii_of_nat (n - 32) else c.

(** [s.charAt(0).toUpperCase() + s.slice(1)] *)
Definition capitalize (s : string) : string :=
  match s with
  | EmptyString => EmptyString
  | String c rest => String (toUpperCase c) rest
  end.

(** [a || b] on tag values: the first one that is present and not empty. *)
Definition first_truthy (a b : option string) : option string :=
  match a with
  | Some (String c s) => Some (String c s)
  | _ => match b with
         | Some (String c s) => Some (String c s)
         | _ => None
         end
  end.

Definition getWaterPointName (point : WaterPoint) : string :=
  match first_truthy (tags point !! "name") (tags point !! "name:en") with
  | Some name => name
  | None => capitalize (type_name (type point)) ++ " Point"
  end.

(** The separator [' • '], in UTF-8. *)
Definition bullet : string :=
  String " " (String "226" (String "128" (String "162" (String " " EmptyString)))).

Definition getWaterPointInfo (point : WaterPoint) : string :=
  let access_info :=
    match tags point !! "access" with
    | Some (String c s) => ["Access: " ++ String c s]
    | _ => []
    end in
  let potable_info :=
    if Overpass.tag_is (tags point) "drinking_water" "yes" then ["Potable water"]
    else if Overpass.tag_is (tags point) "drinking_water" "no" then ["Non-potable"]
    else [] in
  let fee_info :=
    if Overpass.tag_is (tags point) "fee" "yes" then ["Fee required"] else [] in
  let info := (access_info ++ potable_info ++ fee_info)%list in
  if (0 <? length info)%nat then Overpass.join bullet info else "Water point".

End MapUtils.

Module MoreExamples.

Import Types.

(** A document whose only track point has no numeric latitude, with a valid
    route point. *)
Definition shadowed_route : GpxParser.XmlDocument :=
  {| GpxParser.parsererror := false;
     GpxParser.trkpts := [Examples.trkpt "north" "3"];
     GpxParser.rtepts := [Examples.trkpt "48" "2"];
     GpxParser.trk_name := None;
     GpxParser.rte_name := None;
     GpxParser.metadata_name := None |}.

(** A storage with an entry of the cache and an entry of something else. *)
Definition mixed_storage : gmap string string :=
  <["geodrink_cache_k" := "1"]> (<["theme" := "dark"]> ∅).

(** A water point on the start of the route of the scenario. *)
Definition start_point : WaterPoint :=
  {| id := "8";
     lat := 48;
     lon := 2;
     tags := Examples.potable_tags;
     distanceFromStart := 0;
     distanceFromRoute := JS.Finite 0;
     type := fountain |}.

(** A water point with a name. *)
Definition named_point : WaterPoint :=
  {| id := "9";
     lat := 48;
     lon := 2;
     tags := <["name" := "Source"]> Examples.potable_tags;
     distanceFromStart := 0;
     distanceFromRoute := JS.Finite 0;
     type := spring |}.

(** What the first call of the run below stores, and a codec that knows
    this entry only. *)
Definition first_call : list WaterPoint * gmap string string :=
  Overpass.findWaterPoints Examples.integerToString Examples.bounds_text
    Examples.blank_stringify Examples.blank_parse Examples.online
    ∅ 0 1000 Examples.route 100 "potable-only".



End MoreExamples.

(** * Properties *)

(** ** Nearest point on a segment *)

Section Projection.

Import Overpass.
Local Open Scope Q_scope.

Lemma Math_min_cases (a b : Q) :
  (a <= b /\ JS.Math_min a b = a) \/ (b <= a /\ JS.Math_min a b = b).
Proof.
  unfold JS.Math_min. destruct (Qle_bool a b) eqn:E.
  - left. split; [ now apply Qle_bool_iff | reflexivity ].
  - right. split; [ | reflexivity ].
    destruct (Qlt_le_dec b a) as [H | H]; [ now apply Qlt_le_weak | ].
    apply Qle_bool_iff in H. congruence.
Qed.

Lemma Math_max_cases (a b : Q) :
  (a <= b /\ JS.Math_max a b = b) \/ (b <= a /\ JS.Math_max a b = a).
Proof.
  unfold JS.Math_max. destruct (Qle_bool a b) eqn:E.
  - left. split; [ now apply Qle_bool_iff | reflexivity ].
  - right. split; [ | reflexivity ].
    destruct (Qlt_le_dec b a) as [H | H]; [ now apply Qlt_le_weak | ].
    apply Qle_bool_iff in H. congruence.
Qed.

(** The clamp [Math.max(0, Math.min(1, q))] is in [0, 1]. *)
Lemma clamp_unit (q : Q) :
  0 <= JS.Math_max 0 (JS.Math_min 1 q) /\ JS.Math_max 0 (JS.Math_min 1 q) <= 1.
Proof.
  destruct (Math_max_cases 0 (JS.Math_min 1 q)) as [[H ->] | [H ->]];
    destruct (Math_min_cases 1 q) as [[H' E] | [H' E]];
    rewrite ?E in *; split; try assumption; try apply Qle_refl; try discriminate.
Qed.

Lemma is_zero_iff (a : Q) : JS.is_zero a = true <-> a == 0.
Proof. unfold JS.is_zero. apply Qeq_bool_iff. Qed.

(** C7.  For every point and every segment the result of
    [getClosestPointOnSegment] is [segmentStart + t * (segmentEnd -
    segmentStart)] for some [t] in [0, 1]; when the two ends of the segment
    are the same point, the result is the segment's start. *)
Theorem getClosestPointOnSegment_on_segment (point segmentStart segmentEnd : Q * Q) :
  (exists t : Q,
      0 <= t /\ t <= 1 /\
      fst (getClosestPointOnSegment point segmentStart segmentEnd)
        == fst segmentStart + t * (fst segmentEnd - fst segmentStart) /\
      snd (getClosestPointOnSegment point segmentStart segmentEnd)
        == snd segmentStart + t * (snd segmentEnd - snd segmentStart))
  /\ (fst segmentEnd == fst segmentStart -> snd segmentEnd == snd segmentStart ->
      getClosestPointOnSegment point segmentStart segmentEnd = segmentStart).
Proof.
  destruct point as [px py], segmentStart as [ax ay], segmentEnd as [bx by_].
  unfold getClosestPointOnSegment; cbn [fst snd].
  destruct (JS.is_zero (bx - ax) && JS.is_zero (by_ - ay))%bool eqn:Z.
  - split.
    + exists 0. cbn [fst snd].
      repeat split; try discriminate; ring.
    + reflexivity.
  - split.
    + eexists. cbn [fst snd].
      destruct (clamp_unit (((px - ax) * (bx - ax) + (py - ay) * (by_ - ay)) /
                            ((bx - ax) * (bx - ax) + (by_ - ay) * (by_ - ay)))) as [L U].
      split; [ exact L | split; [ exact U | split; reflexivity ] ].
    + intros Hx Hy. exfalso.
      assert (JS.is_zero (bx - ax) = true) as Zx by (apply is_zero_iff; rewrite Hx; ring).
      assert (JS.is_zero (by_ - ay) = true) as Zy by (apply is_zero_iff; rewrite Hy; ring).
      rewrite Zx, Zy in Z. discriminate.
Qed.

Lemma getClosestPointOnSegment_on_segment_witness :
  getClosestPointOnSegment (2.05, 48.00005) (2, 48) (4 # 2, 96 # 2) = (2, 48).
Proof.
  apply (getClosestPointOnSegment_on_segment (2.05, 48.00005) (2, 48) (4 # 2, 96 # 2));
    reflexivity.
Defined.

End Projection.

(** ** Distance along a route of one coordinate *)

Section SinglePointRoute.

Import Types Overpass Haversine.

(** C10.  On a route with exactly one coordinate the segment scan has no
    iteration, so the accumulator keeps its initial point [0, 0]:
    [findDistanceAlongRoute] returns the great-circle distance from that
    coordinate to latitude 0, longitude 0, whatever the query point. *)
Theorem findDistanceAlongRoute_single_coordinate
    (lat lon : Q) (c : Q * Q) (n : option string) (b : Bounds) (total : R) :
  findDistanceAlongRoute lat lon
    {| name := n; coordinates := [c]; bounds := b; totalDistance := total |}
  = calculateDistance (snd c) (fst c) 0 0.
Proof.
  unfold findDistanceAlongRoute, coordinate_at. cbn.
  apply Rplus_0_l.
Qed.

End SinglePointRoute.

(** ** The presets and the filter rules *)

Section Filtering.

Import Types Overpass.

Lemma includes_In (allowed : list string) (v : string) :
  includes allowed v = true <-> In v allowed.
Proof.
  unfold includes. rewrite existsb_exists. split.
  - intros [x [Hx E]]. apply String.eqb_eq in E. now subst.
  - intros H. exists v. split; [ assumption | apply String.eqb_refl ].
Qed.

(** A rule of [processWaterPoint] fires exactly when the function gives up. *)
Lemma processWaterPoint_None (element : Node) (gpxData : GPXData)
    (bufferDistance : Q) (preset : WaterFilterPreset) :
  processWaterPoint element gpxData bufferDistance preset = None <->
  JS.gt_xreal
    (calculateMinDistanceFromRoute (node_lat element) (node_lon element) gpxData)
    (Q2R bufferDistance) = true
  \/ exclude_rejects (filters preset) (default ∅ (node_tags element)) = true
  \/ access_rejects (filters preset) (default ∅ (node_tags element)) = true
  \/ drinking_water_rejects (filters preset) (default ∅ (node_tags element)) = true.
Proof.
  unfold processWaterPoint.
  destruct (JS.gt_xreal _ _); [ intuition | ].
  destruct (exclude_rejects _ _); [ intuition | ].
  destruct (access_rejects _ _); [ intuition | ].
  destruct (drinking_water_rejects _ _); [ intuition | ].
  split; [ discriminate | intuition discriminate ].
Qed.

(** What an accepted node carries. *)
Lemma processWaterPoint_Some (element : Node) (gpxData : GPXData)
    (bufferDistance : Q) (preset : WaterFilterPreset) (w : WaterPoint) :
  processWaterPoint element gpxData bufferDistance preset = Some w ->
  lat w = node_lat element /\ lon w = node_lon element /\
  type w = classify (default ∅ (node_tags element)) /\
  distanceFromRoute w =
    calculateMinDistanceFromRoute (node_lat element) (node_lon element) gpxData /\
  JS.gt_xreal (distanceFromRoute w) (Q2R bufferDistance) = false.
Proof.
  unfold processWaterPoint.
  destruct (JS.gt_xreal _ _) eqn:G; [ discriminate | ].
  destruct (exclude_rejects _ _); [ discriminate | ].
  destruct (access_rejects _ _); [ discriminate | ].
  destruct (drinking_water_rejects _ _); [ discriminate | ].
  intros [= <-]. cbn. auto.
Qed.

(** C6.  The access rule rejects only a record that carries an access tag
    whose value is outside the preset's allow-list, and a record without
    access tag passes it; the potability rule rejects only a record that
    carries a [drinking_water] tag whose value is outside the allow-list, and
    a record without that tag passes it.  A record inside the buffer that no
    exclusion matches is therefore rejected by [processWaterPoint] only for
    one of these two reasons. *)
Theorem allow_list_rules_reject_only_present_tags
    (element : Node) (gpxData : GPXData) (bufferDistance : Q)
    (preset : WaterFilterPreset) :
  let tags := default ∅ (node_tags element) in
  (access_rejects (filters preset) tags = true ->
     exists allowed v, access (filters preset) = Some allowed /\
                       tags !! "access" = Some v /\ ~ In v allowed)
  /\ (tags !! "access" = None -> access_rejects (filters preset) tags = false)
  /\ (drinking_water_rejects (filters preset) tags = true ->
        exists allowed v, drinking_water (filters preset) = Some allowed /\
                          tags !! "drinking_water" = Some v /\ ~ In v allowed)
  /\ (tags !! "drinking_water" = None ->
        drinking_water_rejects (filters preset) tags = false)
  /\ (JS.gt_xreal
        (calculateMinDistanceFromRoute (node_lat element) (node_lon element) gpxData)
        (Q2R bufferDistance) = false ->
      exclude_rejects (filters preset) tags = false ->
      processWaterPoint element gpxData bufferDistance preset = None ->
      access_rejects (filters preset) tags = true
      \/ drinking_water_rejects (filters preset) tags = true).
Proof.
  intros tags. unfold access_rejects, drinking_water_rejects.
  repeat split.
  - destruct (access (filters preset)) as [allowed|]; [ | discriminate ].
    destruct (tags !! "access") as [v|]; [ | discriminate ].
    intros H. apply andb_prop in H as [_ H]. exists allowed, v.
    repeat split. intros HIn. apply includes_In in HIn.
    rewrite HIn in H. discriminate.
  - intros ->. now destruct (access (filters preset)).
  - destruct (drinking_water (filters preset)) as [allowed|]; [ | discriminate ].
    destruct (tags !! "drinking_water") as [v|]; [ | discriminate ].
    intros H. apply andb_prop in H as [_ H]. exists allowed, v.
    repeat split. intros HIn. apply includes_In in HIn.
    rewrite HIn in H. discriminate.
  - intros ->. now destruct (drinking_water (filters preset)).
  - intros G E H. apply processWaterPoint_None in H.
    fold tags in H. unfold access_rejects, drinking_water_rejects in H.
    destruct H as [H | [H | H]]; [ congruence | congruence | exact H ].
Qed.

(** Two presets with the same rule set filter alike and ask the same query. *)
Lemma same_filters_same_outcome (p q : WaterFilterPreset) :
  filters p = filters q ->
  (forall element gpxData bufferDistance,
      processWaterPoint element gpxData bufferDistance p
      = processWaterPoint element gpxData bufferDistance q)
  /\ (forall numberToString gpxData bufferDistance,
         buildOverpassQuery numberToString gpxData bufferDistance p
         = buildOverpassQuery numberToString gpxData bufferDistance q).
Proof.
  intros E. split; intros.
  - unfold processWaterPoint. now rewrite E.
  - unfold buildOverpassQuery. now rewrite E.
Qed.

(** C9.  The presets selected by the ids ['potable-only'] and
    ['free-potable'] have the same rule set: every record is accepted as the
    same water point, or rejected, under both, and both build the same remote
    query. *)
Theorem potable_only_is_free_potable :
  select_preset "potable-only" = potable_only
  /\ select_preset "free-potable" = free_potable
  /\ filters potable_only = filters free_potable
  /\ (forall element gpxData bufferDistance,
         processWaterPoint element gpxData bufferDistance potable_only
         = processWaterPoint element gpxData bufferDistance free_potable)
  /\ (forall numberToString gpxData bufferDistance,
         buildOverpassQuery numberToString gpxData bufferDistance potable_only
         = buildOverpassQuery numberToString gpxData bufferDistance free_potable).
Proof.
  split; [ reflexivity | ].
  split; [ reflexivity | ].
  split; [ reflexivity | ].
  apply same_filters_same_outcome. reflexivity.
Qed.

End Filtering.

(** ** The orchestration *)

Section Orchestration.

Import Types Overpass Spec.

Variable numberToString : Q -> string.
Variable JSON_stringify_bounds : Bounds -> string.
Variable JSON_stringify : CacheManager.CacheEntry (list WaterPoint) -> string.
Variable JSON_parse : string -> option (CacheManager.CacheEntry (list WaterPoint)).
Variable fetch : string -> FetchResult.

Lemma insert_sorted_Permutation (a : WaterPoint) (l : list WaterPoint) :
  Permutation (insert_sorted a l) (a :: l).
Proof.
  induction l as [| b l IH]; cbn; [ reflexivity | ].
  destruct (Rle_dec _ _); [ reflexivity | ].
  rewrite IH. apply perm_swap.
Qed.

Lemma sort_Permutation (l : list WaterPoint) : Permutation (sort l) l.
Proof.
  induction l as [| a l IH]; cbn; [ reflexivity | ].
  rewrite insert_sorted_Permutation. now constructor.
Qed.

Lemma truthy_number_Some (x : option Q) :
  truthy_number x = true -> exists q, x = Some q /\ ~ (q == 0)%Q.
Proof.
  destruct x as [q|]; cbn; [ | discriminate ].
  intros H. exists q. split; [ reflexivity | ].
  intros Z. apply is_zero_iff in Z. rewrite Z in H. discriminate.
Qed.

Lemma process_elements_from_node (elements : list Element) (gpxData : GPXData)
    (bufferDistance : Q) (preset : WaterFilterPreset) (w : WaterPoint) :
  In w (process_elements elements gpxData bufferDistance preset) ->
  from_node elements gpxData bufferDistance preset w.
Proof.
  unfold process_elements.
  enough (forall acc,
             In w (fold_left
                     (fun (waterPoints : list WaterPoint) element =>
                        if (String.eqb (element_type element) "node"
                            && truthy_number (element_lat element)
                            && truthy_number (element_lon element))%bool
                        then
                          match processWaterPoint
                                  {| node_lat := default 0%Q (element_lat element);
                                     node_lon := default 0%Q (element_lon element);
                                     node_tags := element_tags element;
                                     node_id := element_id element |}
                                  gpxData bufferDistance preset with
                          | Some waterPoint => (waterPoints ++ [waterPoint])%list
                          | None => waterPoints
                          end
                        else waterPoints) elements acc) ->
             In w acc \/ from_node elements gpxData bufferDistance preset w) as G.
  { intros H. destruct (G [] H) as [[] | ?]. assumption. }
  induction elements as [| e es IH]; cbn [fold_left]; intros acc H.
  - now left.
  - apply IH in H. destruct H as [H | (e' & la & lo & Hin & Hrest)].
    + destruct (String.eqb (element_type e) "node") eqn:Ty; cbn [andb] in H; [ | now left ].
      destruct (truthy_number (element_lat e)) eqn:La; cbn [andb] in H; [ | now left ].
      destruct (truthy_number (element_lon e)) eqn:Lo; cbn [andb] in H; [ | now left ].
      destruct (processWaterPoint _ _ _ _) as [w'|] eqn:P; [ | now left ].
      apply in_app_or in H. destruct H as [H | [<- | []]]; [ now left | ].
      right. apply truthy_number_Some in La as (la & Ela & Hla).
      apply truthy_number_Some in Lo as (lo & Elo & Hlo).
      exists e, la, lo. rewrite Ela, Elo in P. cbn in P.
      apply String.eqb_eq in Ty.
      repeat split; try assumption. now left.
    + right. exists e', la, lo. split; [ now right | assumption ].
Qed.

(** C8.  After a cache miss, every water point [findWaterPoints] returns was
    made from a node of a successful response whose latitude and longitude
    are both present and different from 0: an element whose latitude or
    longitude is 0 never shows in the result, whatever its tags and its
    distance from the route. *)
Theorem zero_coordinate_nodes_never_returned
    (localStorage : gmap string string) (now now' : Z)
    (gpxData : GPXData) (bufferDistance : Q) (filterPreset : string) :
  fst (CacheManager.get (list WaterPoint) JSON_parse localStorage now
         (CacheManager.generateCacheKey numberToString (bounds gpxData) bufferDistance
            ++ "_" ++ filterPreset)) = None ->
  Forall
    (fun w =>
       ~ (lat w == 0)%Q /\ ~ (lon w == 0)%Q /\
       exists status elements,
         fetch (buildOverpassQuery numberToString gpxData bufferDistance
                  (select_preset filterPreset))
         = Response true status (Body (Some elements)) /\
         from_node elements gpxData bufferDistance (select_preset filterPreset) w)
    (fst (findWaterPoints numberToString JSON_stringify_bounds JSON_stringify
            JSON_parse fetch localStorage now now' gpxData bufferDistance filterPreset)).
Proof.
  intros Miss. unfold findWaterPoints.
  destruct (CacheManager.get _ _ _ _ _) as [cached storage]. cbn in Miss. subst cached.
  destruct (fetch _) as [| ok status body] eqn:F; cbn; [ constructor | ].
  destruct ok; cbn; [ | constructor ].
  destruct body as [| [elements |]]; cbn; [ constructor | | constructor ].
  apply List.Forall_forall. intros w Hw.
  apply (Permutation_in _ (sort_Permutation _)) in Hw.
  apply process_elements_from_node in Hw.
  assert (from_node elements gpxData bufferDistance (select_preset filterPreset) w)
    as Hfrom by exact Hw.
  destruct Hw as (e & la & lo & _ & _ & _ & Hla & _ & Hlo & P).
  apply processWaterPoint_Some in P as (-> & -> & _). cbn.
  split; [ exact Hla | split; [ exact Hlo | ] ].
  exists status, elements. split; [ reflexivity | exact Hfrom ].
Qed.

(** C4.  After a cache miss, when the fetch fails (the request is rejected,
    or the status is not a success) or the body is malformed,
    [findWaterPoints] resolves to the empty list, and stores nothing. *)
Theorem findWaterPoints_fetch_failure
    (localStorage : gmap string string) (now now' : Z)
    (gpxData : GPXData) (bufferDistance : Q) (filterPreset : string) :
  fst (CacheManager.get (list WaterPoint) JSON_parse localStorage now
         (CacheManager.generateCacheKey numberToString (bounds gpxData) bufferDistance
            ++ "_" ++ filterPreset)) = None ->
  fetch_failed
    (fetch (buildOverpassQuery numberToString gpxData bufferDistance
              (select_preset filterPreset))) = true ->
  findWaterPoints numberToString JSON_stringify_bounds JSON_stringify
    JSON_parse fetch localStorage now now' gpxData bufferDistance filterPreset
  = ([],
     snd (CacheManager.get (list WaterPoint) JSON_parse localStorage now
            (CacheManager.generateCacheKey numberToString (bounds gpxData) bufferDistance
               ++ "_" ++ filterPreset))).
Proof.
  intros Miss Failed. unfold findWaterPoints.
  destruct (CacheManager.get _ _ _ _ _) as [cached storage]. cbn in Miss. subst cached.
  cbn [snd].
  destruct (fetch _) as [| ok status body]; [ reflexivity | ].
  destruct ok; [ | reflexivity ].
  destruct body; [ reflexivity | discriminate ].
Qed.

End Orchestration.

(** ** The cache *)

Section Cache.

Import Types CacheManager.

Variable T : Type.
Variable JSON_stringify_bounds : Bounds -> string.
Variable JSON_stringify : CacheEntry T -> string.
Variable JSON_parse : string -> option (CacheEntry T).

Lemma filter_length_Permutation (p : string -> bool) (l l' : list string) :
  Permutation l l' -> length (List.filter p l) = length (List.filter p l').
Proof.
  induction 1 as [| x l l' _ IH | x y l | l l' l'' _ IH _ IH']; cbn.
  - reflexivity.
  - destruct (p x); cbn; congruence.
  - destruct (p x), (p y); reflexivity.
  - congruence.
Qed.

(** [totalEntries] counts the keys of the namespace. *)
Lemma totalEntries_count (localStorage : gmap string string) :
  totalEntries (getCacheInfo localStorage)
  = length (List.filter (String.prefix CACHE_PREFIX) (keys localStorage)).
Proof.
  unfold getCacheInfo.
  generalize (keys localStorage) as l.
  enough (forall l info,
             totalEntries
               (fold_left
                  (fun info key =>
                     if String.prefix CACHE_PREFIX key then
                       {| totalEntries := S (totalEntries info);
                          totalSize :=
                            match localStorage !! key with
                            | Some item =>
                                if JS.truthy_string item
                                then totalSize info + String.length item
                                else totalSize info
                            | None => totalSize info
                            end |}
                     else info) l info)
             = totalEntries info + length (List.filter (String.prefix CACHE_PREFIX) l)) as G.
  { intros l. now rewrite G. }
  induction l as [| k l IH]; intros info; cbn [fold_left List.filter].
  - cbn. lia.
  - rewrite IH. destruct (String.prefix CACHE_PREFIX k); cbn; lia.
Qed.

Lemma keys_delete (localStorage : gmap string string) (key item : string) :
  localStorage !! key = Some item ->
  Permutation (key :: keys (delete key localStorage)) (keys localStorage).
Proof.
  intros H. unfold keys.
  apply (map_to_list_delete localStorage) in H.
  change (key :: (map_to_list (delete key localStorage)).*1)
    with (((key, item) :: map_to_list (delete key localStorage)).*1).
  now rewrite H.
Qed.

(** C5.  [set(k, v, ...)] at time [now] followed by [get(k)] at time [now']:
    when no more than one hour has passed, [get] returns [v] and leaves the
    storage as it is; when more than one hour has passed, [get] returns
    [null] and removes the entry, which [getCacheInfo] then no longer counts.
    The entry is assumed to survive JSON serialisation, as plain data does. *)
Theorem set_then_get
    (localStorage : gmap string string) (now now' : Z) (k : string) (v : T)
    (bounds : Bounds) (bufferDistance : Q) :
  let entry :=
    {| data := v; timestamp := now;
       entry_bounds := JSON_stringify_bounds bounds;
       entry_bufferDistance := bufferDistance |} in
  let stored := set T JSON_stringify_bounds JSON_stringify
                  localStorage now k v bounds bufferDistance in
  JSON_parse (JSON_stringify entry) = Some entry ->
  JS.truthy_string (JSON_stringify entry) = true ->
  ((now' - now <= CACHE_DURATION)%Z ->
     get T JSON_parse stored now' k = (Some v, stored))
  /\ ((now' - now > CACHE_DURATION)%Z ->
        get T JSON_parse stored now' k = (None, delete k stored)
        /\ delete k stored !! k = None
        /\ delete k stored = delete k localStorage
        /\ (String.prefix CACHE_PREFIX k = true ->
            S (totalEntries (getCacheInfo (delete k stored)))
            = totalEntries (getCacheInfo stored))).
Proof.
  intros entry stored Round Truthy.
  assert (stored !! k = Some (JSON_stringify entry)) as Lookup
      by apply lookup_insert_eq.
  split; intros Age.
  - unfold get. rewrite Lookup, Truthy, Round. cbn.
    destruct (Z.gtb_spec (now' - now) CACHE_DURATION); [ lia | reflexivity ].
  - split; [ | split; [ | split ] ].
    + unfold get. rewrite Lookup, Truthy, Round. cbn.
      destruct (Z.gtb_spec (now' - now) CACHE_DURATION); [ reflexivity | lia ].
    + apply lookup_delete_eq.
    + apply delete_insert_eq.
    + intros Prefixed. rewrite !totalEntries_count.
      rewrite <- (filter_length_Permutation _ _ _ (keys_delete stored k _ Lookup)).
      cbn. now rewrite Prefixed.
Qed.

End Cache.

(** ** Cache keys *)

Section CacheKeys.

Import Types CacheManager.

Variable numberToString : Q -> string.

Lemma toFixed_same_rounding (x y : Q) :
  Spec.same_rounding x y -> toFixed numberToString x 4 = toFixed numberToString y 4.
Proof.
  intros (Side & Bx & By & Near). unfold toFixed. cbv zeta.
  rewrite Bx, By, Near, Side. reflexivity.
Qed.

(** C3, as the code has it.  Two bounding boxes whose fields have the same
    rounding to four decimals (nearest, ties away from zero), with the same
    buffer distance and filter id, have the same cache key. *)
Theorem same_rounding_same_key (a b : Bounds) (bufferDistance : Q) (filterPreset : string) :
  Spec.bounds_same_rounding a b ->
  generateCacheKey numberToString a bufferDistance ++ "_" ++ filterPreset
  = generateCacheKey numberToString b bufferDistance ++ "_" ++ filterPreset.
Proof.
  intros (N & S & E & W). unfold generateCacheKey.
  rewrite (toFixed_same_rounding _ _ N), (toFixed_same_rounding _ _ S),
    (toFixed_same_rounding _ _ E), (toFixed_same_rounding _ _ W).
  reflexivity.
Qed.

End CacheKeys.

(** 48.00001 and 48.00004 both round to 48.0000: the keys collide. *)
Lemma same_rounding_same_key_witness :
  CacheManager.generateCacheKey Examples.integerToString Examples.box_1 100
    ++ "_" ++ "potable-only"
  = CacheManager.generateCacheKey Examples.integerToString Examples.box_4 100
    ++ "_" ++ "potable-only".
Proof.
  apply (same_rounding_same_key Examples.integerToString Examples.box_1 Examples.box_4).
  repeat split; vm_compute; reflexivity.
Defined.

(** C3, as stated, fails: 48.00004 and 48.00006 differ only in the fifth
    decimal, but the first rounds to 48.0000 and the second to 48.0001. *)
Lemma fifth_decimal_keys_differ :
  Types.south Examples.box_4 = Types.south Examples.box_6
  /\ Types.east Examples.box_4 = Types.east Examples.box_6
  /\ Types.west Examples.box_4 = Types.west Examples.box_6
  /\ (Types.north Examples.box_6 - Types.north Examples.box_4 == 2 # 100000)%Q
  /\ CacheManager.generateCacheKey Examples.integerToString Examples.box_4 100
       ++ "_" ++ "potable-only"
     = "geodrink_cache_48.0000_48.0000_2.1000_2.0000_100_potable-only"
  /\ CacheManager.generateCacheKey Examples.integerToString Examples.box_6 100
       ++ "_" ++ "potable-only"
     = "geodrink_cache_48.0001_48.0000_2.1000_2.0000_100_potable-only"
  /\ CacheManager.generateCacheKey Examples.integerToString Examples.box_4 100
       ++ "_" ++ "potable-only"
     <> CacheManager.generateCacheKey Examples.integerToString Examples.box_6 100
       ++ "_" ++ "potable-only".
Proof.
  repeat split; try (vm_compute; discriminate).
Qed.

(** ** Witnesses of the filter and cache theorems *)

Lemma allow_list_rules_witness :
  exists allowed v,
    Types.access (Types.filters Overpass.emergency_sources) = Some allowed
    /\ default ∅ (Overpass.node_tags Examples.private_well) !! "access" = Some v
    /\ ~ In v allowed.
Proof.
  apply (proj1 (allow_list_rules_reject_only_present_tags
                  Examples.private_well Examples.route 100 Overpass.emergency_sources)).
  vm_compute. reflexivity.
Defined.

Lemma set_then_get_witness :
  CacheManager.get string Examples.text_parse
    (CacheManager.set string Examples.bounds_text Examples.text_stringify
       ∅ 1000 "geodrink_cache_k" "payload" Examples.route_bounds 100)
    2000 "geodrink_cache_k"
  = (Some "payload",
     CacheManager.set string Examples.bounds_text Examples.text_stringify
       ∅ 1000 "geodrink_cache_k" "payload" Examples.route_bounds 100).
Proof.
  apply (set_then_get string Examples.bounds_text Examples.text_stringify
           Examples.text_parse ∅ 1000 2000 "geodrink_cache_k" "payload"
           Examples.route_bounds 100).
  - vm_compute. reflexivity.
  - vm_compute. reflexivity.
  - vm_compute. discriminate.
Defined.

Lemma findWaterPoints_fetch_failure_witness :
  Overpass.findWaterPoints Examples.integerToString Examples.bounds_text
    Examples.blank_stringify Examples.blank_parse Examples.offline
    ∅ 0 0 Examples.route 100 "potable-only"
  = ([], ∅).
Proof.
  etransitivity.
  - apply (findWaterPoints_fetch_failure Examples.integerToString Examples.bounds_text
             Examples.blank_stringify Examples.blank_parse Examples.offline
             ∅ 0 0 Examples.route 100 "potable-only"); reflexivity.
  - reflexivity.
Defined.

Lemma zero_coordinate_nodes_never_returned_witness :
  Forall (fun w => ~ (Types.lat w == 0)%Q /\ ~ (Types.lon w == 0)%Q)
    (fst (Overpass.findWaterPoints Examples.integerToString Examples.bounds_text
            Examples.blank_stringify Examples.blank_parse Examples.online
            ∅ 0 0 Examples.route 100 "potable-only")).
Proof.
  eapply List.Forall_impl;
    [ | apply (zero_coordinate_nodes_never_returned Examples.integerToString
                 Examples.bounds_text Examples.blank_stringify Examples.blank_parse
                 Examples.online ∅ 0 0 Examples.route 100 "potable-only");
        reflexivity ].
  intros w (Lat & Lon & _). split; assumption.
Defined.

(** ** Track parsing *)

Section TrackParsing.

Import GpxParser Spec.

Lemma visit_retained (s : Scan) (p : PointElement) :
  retained p = true ->
  visit s p = {| scan_coordinates := scan_coordinates s ++ [(parsed_lon p, parsed_lat p)];
                 minLat := Math_min (minLat s) (parsed_lat p);
                 maxLat := Math_max (maxLat s) (parsed_lat p);
                 minLon := Math_min (minLon s) (parsed_lon p);
                 maxLon := Math_max (maxLon s) (parsed_lon p) |}.
Proof.
  unfold retained, visit, parsed_lat, parsed_lon. now intros ->.
Qed.

Lemma visit_skipped (s : Scan) (p : PointElement) :
  retained p = false -> visit s p = s.
Proof.
  unfold retained, visit, parsed_lat, parsed_lon. now intros ->.
Qed.

(** The scan keeps, in order, the points neither coordinate of which is
    [NaN], and folds the four bounds over them. *)
Lemma visit_fold (points : list PointElement) (s : Scan) :
  scan_coordinates (fold_left visit points s)
    = (scan_coordinates s ++ retained_coordinates points)%list
  /\ maxLat (fold_left visit points s)
     = fold_left Math_max (List.map snd (retained_coordinates points)) (maxLat s)
  /\ minLat (fold_left visit points s)
     = fold_left Math_min (List.map snd (retained_coordinates points)) (minLat s)
  /\ maxLon (fold_left visit points s)
     = fold_left Math_max (List.map fst (retained_coordinates points)) (maxLon s)
  /\ minLon (fold_left visit points s)
     = fold_left Math_min (List.map fst (retained_coordinates points)) (minLon s).
Proof.
  revert s. induction points as [| p points IH]; intros s.
  - cbn. rewrite app_nil_r. auto.
  - cbn [fold_left]. specialize (IH (visit s p)).
    unfold retained_coordinates in *. cbn [List.filter].
    destruct (retained p) eqn:Keep.
    + rewrite (visit_retained s p Keep) in *.
      cbn [scan_coordinates maxLat minLat maxLon minLon List.map fold_left fst snd] in *.
      rewrite <- app_assoc in IH. exact IH.
    + rewrite (visit_skipped s p Keep) in *. exact IH.
Qed.

(** [parseGPX] in one equation. *)
Lemma parseGPX_retained (xmlDoc : XmlDocument) :
  parseGPX xmlDoc =
  if parsererror xmlDoc then None
  else match retained_coordinates (points_of xmlDoc) with
       | [] => None
       | cs => Some {| name := first_name (trk_name xmlDoc) (rte_name xmlDoc)
                                 (metadata_name xmlDoc);
                       coordinates := cs;
                       bounds := bounds_of cs;
                       totalDistance := sum_segments cs |}
       end.
Proof.
  unfold parseGPX, points_of.
  destruct (parsererror xmlDoc); [ reflexivity | ].
  destruct (trkpts xmlDoc) as [| p ps] eqn:Trk; cbn [length Nat.eqb Nat.ltb Nat.leb andb].
  - destruct (rtepts xmlDoc) as [| q qs] eqn:Rte; [ reflexivity | ].
    cbn [length Nat.eqb].
    destruct (visit_fold (q :: qs) scan_start) as (C & N & S & E & W).
    rewrite C, N, S, E, W. cbn [scan_start scan_coordinates maxLat minLat maxLon minLon app].
    now destruct (retained_coordinates (q :: qs)).
  - destruct (visit_fold (p :: ps) scan_start) as (C & N & S & E & W).
    rewrite C, N, S, E, W. cbn [scan_start scan_coordinates maxLat minLat maxLon minLon app].
    now destruct (retained_coordinates (p :: ps)).
Qed.

Lemma retained_coordinates_app (l1 l2 : list PointElement) :
  retained_coordinates (l1 ++ l2)
  = (retained_coordinates l1 ++ retained_coordinates l2)%list.
Proof.
  unfold retained_coordinates. now rewrite List.filter_app, List.map_app.
Qed.

Lemma retained_coordinates_all (l : list PointElement) :
  forallb retained l = true ->
  retained_coordinates l = List.map (fun p => (parsed_lon p, parsed_lat p)) l.
Proof.
  unfold retained_coordinates. induction l as [| p l IH]; cbn; [ reflexivity | ].
  intros H. apply andb_prop in H as [Hp Hl]. rewrite Hp. cbn. now rewrite IH.
Qed.

(** C2, as the code has it.  A point whose latitude or longitude (the
    attribute, or ['0'] when it is missing or empty) is parsed to [NaN] by
    [parseFloat] is skipped: the coordinates are those of the other points, in
    order, and the parse succeeds, with bounds over the retained coordinates
    only, as soon as one other point is retained.  In particular three valid
    points and one point whose latitude [parseFloat] reads as [NaN] give a
    route of exactly three coordinates whose bounds are those of the three.
    (An empty latitude is read as 0, and ["48.5N"] as 48.5: such a point is
    kept.) *)
Theorem parseGPX_skips_NaN_points
    (xmlDoc : XmlDocument) (before : list PointElement) (bad : PointElement)
    (after : list PointElement) :
  parsererror xmlDoc = false ->
  points_of xmlDoc = (before ++ bad :: after)%list ->
  isNaN (parsed_lat bad) = true \/ isNaN (parsed_lon bad) = true ->
  retained_coordinates (points_of xmlDoc) = retained_coordinates (before ++ after)
  /\ (retained_coordinates (before ++ after) <> [] ->
      exists r, parseGPX xmlDoc = Some r
                /\ coordinates r = retained_coordinates (before ++ after)
                /\ bounds r = bounds_of (retained_coordinates (before ++ after)))
  /\ (length (before ++ after) = 3%nat ->
      forallb retained (before ++ after) = true ->
      exists r, parseGPX xmlDoc = Some r
                /\ length (coordinates r) = 3%nat
                /\ coordinates r
                   = List.map (fun p => (parsed_lon p, parsed_lat p)) (before ++ after)
                /\ bounds r = bounds_of (coordinates r)).
Proof.
  intros NoError Points Bad.
  assert (retained bad = false) as Skipped.
  { unfold retained. destruct Bad as [-> | ->]; cbn; [ reflexivity | apply andb_false_r ]. }
  assert (retained_coordinates (points_of xmlDoc) = retained_coordinates (before ++ after))
    as Same.
  { rewrite Points, !retained_coordinates_app.
    unfold retained_coordinates at 2. cbn [List.filter]. now rewrite Skipped. }
  split; [ exact Same | ].
  assert (retained_coordinates (before ++ after) <> [] ->
          exists r, parseGPX xmlDoc = Some r
                    /\ coordinates r = retained_coordinates (before ++ after)
                    /\ bounds r = bounds_of (retained_coordinates (before ++ after)))
    as Succeeds.
  { intros NonEmpty. rewrite parseGPX_retained, NoError, Same.
    destruct (retained_coordinates (before ++ after)) as [| c cs]; [ congruence | ].
    eexists. split; [ reflexivity | split; reflexivity ]. }
  split; [ exact Succeeds | ].
  intros Three Valid.
  pose proof (retained_coordinates_all _ Valid) as All.
  destruct Succeeds as (r & P & C & B).
  { rewrite All. intros E. apply (f_equal (@length _)) in E.
    rewrite length_map, Three in E. discriminate. }
  exists r. rewrite C, B, All, length_map. auto.
Qed.

End TrackParsing.

Lemma parseGPX_skips_NaN_points_witness :
  exists r, GpxParser.parseGPX Examples.three_and_one = Some r
            /\ length (GpxParser.coordinates r) = 3%nat
            /\ GpxParser.coordinates r
               = [(GpxParser.Num 2, GpxParser.Num 48); (GpxParser.Num 1, GpxParser.Num 49);
                  (GpxParser.Num 4, GpxParser.Num 47)]
            /\ GpxParser.bounds r
               = {| GpxParser.north := GpxParser.Num 49; GpxParser.south := GpxParser.Num 47;
                    GpxParser.east := GpxParser.Num 4; GpxParser.west := GpxParser.Num 1 |}.
Proof.
  destruct (proj2 (proj2 (parseGPX_skips_NaN_points Examples.three_and_one
                            [Examples.trkpt "48" "2"] (Examples.trkpt "north" "3")
                            [Examples.trkpt "49" "1"; Examples.trkpt "47" "4"]
                            eq_refl eq_refl (or_introl eq_refl)))
              eq_refl eq_refl) as (r & P & L & C & B).
  exists r. rewrite B, C. repeat split; assumption || reflexivity.
Defined.

(** C2, as stated, fails: a latitude attribute ["Infinity"] does not parse
    to a finite number, and the point is kept, with an infinite bound. *)
Lemma infinite_latitude_is_kept :
  GpxParser.isFinite (GpxParser.parseFloat "Infinity") = false
  /\ exists r, GpxParser.parseGPX Examples.infinite_latitude = Some r
               /\ GpxParser.coordinates r = [(GpxParser.Num 2, GpxParser.PosInfinity)]
               /\ GpxParser.north (GpxParser.bounds r) = GpxParser.PosInfinity.
Proof.
  split; [ reflexivity | ].
  rewrite parseGPX_retained. cbn. eexists. repeat split.
Qed.

(** ** Bounds on the great-circle distance *)

Section DistanceBounds.

Local Open Scope R_scope.

Lemma PI_gt_3 : 3 < PI.
Proof. pose proof PI2_3_2. lra. Qed.

Lemma sin_sq_le (v : R) : sin v * sin v <= v * v.
Proof.
  assert (forall w, 0 <= w -> sin w * sin w <= w * w) as Pos.
  { intros w Hw. destruct (Rle_lt_dec w PI) as [Hle | Hgt].
    - assert (0 <= sin w) by (apply sin_ge_0; assumption).
      assert (sin w <= w).
      { destruct Hw as [Hw | <-]; [ left; now apply sin_lt_x | rewrite sin_0; lra ]. }
      nra.
    - pose proof (SIN_bound w). pose proof PI_gt_3. nra. }
  destruct (Rle_lt_dec 0 v) as [H | H]; [ now apply Pos | ].
  specialize (Pos (- v)). rewrite sin_neg in Pos.
  assert (0 <= - v) as H' by lra. apply Pos in H'. nra.
Qed.

Lemma cos_lower (x : R) : 1 - x * x / 2 <= cos x.
Proof.
  replace x with (2 * (x / 2)) at 3 by field.
  rewrite cos_2a_sin. pose proof (sin_sq_le (x / 2)). nra.
Qed.

Lemma sin_lower (x : R) : 0 <= x <= 1 -> x / 2 <= sin x.
Proof.
  intros [H0 H1].
  pose proof PI_gt_3.
  destruct (SIN x) as [L _]; [ lra | lra | ].
  unfold sin_lb, sin_approx, sin_term in L. cbn -[INR] in L.
  rewrite !INR_IZR_INZ in L.
  repeat match type of L with
         | context [Z.of_nat ?n] =>
             let z := eval vm_compute in (Z.of_nat n) in
             change (Z.of_nat n) with z in L
         end.
  assert (0 <= x * x <= 1) as S2 by nra.
  assert (0 <= x * (x * (x * 1)) <= x) as S3 by nra.
  assert (0 <= x * (x * (x * (x * (x * (x * (x * 1))))))
          <= x * (x * (x * (x * (x * 1))))) as S7.
  { assert (0 <= x * (x * (x * (x * (x * 1))))) by (repeat apply Rmult_le_pos; lra).
    nra. }
  lra.
Qed.

Lemma tan_small : tan (1 / 100000) < 3 / 100000.
Proof.
  unfold tan.
  assert (sin (1 / 100000) < 1 / 100000) by (apply sin_lt_x; lra).
  pose proof (cos_lower (1 / 100000)).
  assert (0 < sin (1/100000)).
  { apply sin_gt_0; pose proof PI_gt_3; lra. }
  assert (9 / 10 <= cos (1 / 100000)) as Hc by lra.
  apply (Rmult_lt_reg_r (cos (1 / 100000))); [ lra | ].
  unfold Rdiv at 1. rewrite Rmult_assoc, Rinv_l by lra. nra.
Qed.

Lemma atan_lower (m : R) : 3 / 100000 <= m -> 1 / 100000 < atan m.
Proof.
  intros H. rewrite <- (atan_tan (1 / 100000)) by (pose proof PI_gt_3; lra).
  apply atan_increasing. pose proof tan_small. lra.
Qed.


Lemma sin_sq_lower (u : R) :
  1 / 3000 <= Rabs u <= 1 -> (1 / 6000) * (1 / 6000) <= sin u * sin u.
Proof.
  intros [L U].
  assert (forall w, 1 / 3000 <= w <= 1 -> (1 / 6000) * (1 / 6000) <= sin w * sin w) as Pos.
  { intros w [Lw Uw]. pose proof (sin_lower w). nra. }
  destruct (Rcase_abs u) as [Neg | NonNeg].
  - rewrite (Rabs_left u Neg) in L, U.
    specialize (Pos (- u) (conj L U)). rewrite sin_neg in Pos. nra.
  - rewrite (Rabs_right u NonNeg) in L, U. now apply Pos.
Qed.

Lemma cos_latitude_lower (x : R) : 0 <= x <= 50 -> 38 / 100 <= cos (x * PI / 180) <= 1.
Proof.
  intros [L U]. pose proof PI_gt_3. pose proof PI_4.
  pose proof (cos_lower (x * PI / 180)). pose proof (COS_bound (x * PI / 180)).
  assert (0 <= x * PI / 180 <= 10 / 9) by nra.
  nra.
Qed.

Lemma calculateDistance_far (lat1 lon1 lat2 lon2 : Q) :
  0 <= Q2R lat1 <= 50 -> 0 <= Q2R lat2 <= 50 ->
  4 / 100 <= Rabs (Q2R (lon2 - lon1)) <= 2 ->
  100 < Haversine.calculateDistance lat1 lon1 lat2 lon2.
Proof.
  intros H1 H2 Hl. unfold Haversine.calculateDistance. cbv zeta.
  pose proof PI_gt_3 as Pl. pose proof PI_4 as Pu.
  set (u := Q2R (lon2 - lon1) * PI / 180 / 2).
  set (v := Q2R (lat2 - lat1) * PI / 180 / 2).
  set (c1 := cos (Q2R lat1 * PI / 180)).
  set (c2 := cos (Q2R lat2 * PI / 180)).
  set (a := sin v * sin v + c1 * c2 * sin u * sin u).
  assert (38 / 100 <= c1 <= 1) as C1 by now apply cos_latitude_lower.
  assert (38 / 100 <= c2 <= 1) as C2 by now apply cos_latitude_lower.
  assert (1 / 3000 <= Rabs u <= 1 / 45) as U.
  { unfold u. replace (Q2R (lon2 - lon1) * PI / 180 / 2)
      with (Q2R (lon2 - lon1) * (PI / 360)) by field.
    rewrite Rabs_mult, (Rabs_right (PI / 360)) by lra. nra. }
  assert ((1 / 6000) * (1 / 6000) <= sin u * sin u) as Su
      by (apply sin_sq_lower; lra).
  assert (sin u * sin u <= (1 / 45) * (1 / 45)) as Su'.
  { pose proof (sin_sq_le u).
    assert (u * u <= (1 / 45) * (1 / 45)).
    { destruct (Rcase_abs u) as [N | N];
        [ rewrite (Rabs_left u N) in U | rewrite (Rabs_right u N) in U ]; nra. }
    lra. }
  assert (sin v * sin v <= (5 / 9) * (5 / 9)) as Sv.
  { pose proof (sin_sq_le v) as Le.
    assert (- (5 / 9) <= v <= 5 / 9) as Bv.
    { unfold v. rewrite Q2R_minus.
      assert (-50 <= Q2R lat2 - Q2R lat1 <= 50) as D by lra.
      split; nra. }
    assert (v * v <= (5 / 9) * (5 / 9)) by nra. lra. }
  assert (0 <= sin v * sin v) as Sv0 by nra.
  assert ((38 / 100 / 6000) * (38 / 100 / 6000) <= a) as A.
  { unfold a.
    assert ((38/100) * (38/100) <= c1 * c2) by nra.
    assert ((38/100) * (38/100) * ((1/6000) * (1/6000)) <= c1 * c2 * (sin u * sin u)) by nra.
    nra. }
  assert (a <= 1 / 2) as A'.
  { unfold a. assert (c1 * c2 <= 1) by nra.
    assert (0 <= c1 * c2) by nra.
    assert (c1 * c2 * (sin u * sin u) <= (1/45) * (1/45)) by nra. nra. }
  assert (38 / 100 / 6000 <= sqrt a) as Ra.
  { rewrite <- (sqrt_square (38 / 100 / 6000)) by lra. now apply sqrt_le_1_alt. }
  assert (0 < sqrt (1 - a) <= 1) as Rb.
  { split; [ apply sqrt_lt_R0; lra | ].
    rewrite <- sqrt_1 at 2. apply sqrt_le_1_alt. lra. }
  unfold JS.atan2. destruct (Rlt_dec 0 (sqrt (1 - a))) as [_ | N]; [ | lra ].
  assert (sqrt a <= sqrt a / sqrt (1 - a)) as Q.
  { apply (Rmult_le_reg_r (sqrt (1 - a))); [ lra | ].
    unfold Rdiv. rewrite Rmult_assoc, Rinv_l by lra. nra. }
  pose proof (atan_lower (sqrt a / sqrt (1 - a))) as At.
  lra.
Qed.

(** The distance of a point to itself is zero. *)
Lemma calculateDistance_same (lat lon : Q) :
  Haversine.calculateDistance lat lon lat lon = 0.
Proof.
  unfold Haversine.calculateDistance. cbv zeta.
  rewrite !Q2R_minus.
  replace ((Q2R lat - Q2R lat) * PI / 180 / 2) with 0 by field.
  replace ((Q2R lon - Q2R lon) * PI / 180 / 2) with 0 by field.
  rewrite sin_0, !Rmult_0_r, Rplus_0_l, Rminus_0_r, sqrt_0, sqrt_1.
  unfold JS.atan2. destruct (Rlt_dec 0 1) as [_ | N]; [ | lra ].
  unfold Rdiv. rewrite Rmult_0_l, atan_0. ring.
Qed.

(** No distance exceeds half the circumference of the Earth. *)
Lemma calculateDistance_upper (lat1 lon1 lat2 lon2 : Q) :
  Haversine.calculateDistance lat1 lon1 lat2 lon2 <= 6371000 * 4.
Proof.
  unfold Haversine.calculateDistance. cbv zeta.
  pose proof PI_gt_3 as Pl. pose proof PI_4 as Pu.
  match goal with
  | |- context [JS.atan2 ?y ?x] =>
      assert (JS.atan2 y x <= PI / 2) as B;
      [ pose proof (sqrt_pos (1 -
          (sin (Q2R (lat2 - lat1) * PI / 180 / 2) * sin (Q2R (lat2 - lat1) * PI / 180 / 2) +
           cos (Q2R lat1 * PI / 180) * cos (Q2R lat2 * PI / 180) *
           sin (Q2R (lon2 - lon1) * PI / 180 / 2) * sin (Q2R (lon2 - lon1) * PI / 180 / 2))));
        unfold JS.atan2;
        destruct (Rlt_dec 0 x);
        [ pose proof (atan_bound (y / x)); lra | ];
        destruct (Rlt_dec x 0); [ lra | ];
        destruct (Rlt_dec 0 y); [ lra | ];
        destruct (Rlt_dec y 0); lra
      | ]
  end.
  lra.
Qed.

End DistanceBounds.

(** Turns the rationals of a goal into quotients of integer constants. *)
Ltac rational_constants :=
  repeat match goal with
         | |- context [Q2R ?q] =>
             let q' := eval vm_compute in q in
             progress change (Q2R q) with (Q2R q')
         end;
  unfold Q2R; cbn [Qnum Qden].

(** ** The example scenario *)

Section Scenario.

Import Types Overpass Examples.
Local Open Scope R_scope.

(** The record is more than 100 m away from both vertices of the route. *)
Lemma record_far_from_start : 100 < Haversine.calculateDistance 48 2 48.00005 2.05.
Proof.
  apply calculateDistance_far.
  - rational_constants; lra.
  - rational_constants; lra.
  - rewrite Rabs_right; rational_constants; lra.
Qed.

Lemma record_far_from_end : 100 < Haversine.calculateDistance 48 2.1 48.00005 2.05.
Proof.
  apply calculateDistance_far.
  - rational_constants; lra.
  - rational_constants; lra.
  - rewrite Rabs_left; rational_constants; lra.
Qed.

Lemma record_distance_from_route :
  calculateMinDistanceFromRoute 48.00005 2.05 route
  = JS.Finite (Rmin (Haversine.calculateDistance 48 2 48.00005 2.05)
                    (Haversine.calculateDistance 48 2.1 48.00005 2.05)).
Proof. reflexivity. Qed.

Lemma record_passes_potable_only :
  classify potable_tags = fountain
  /\ exclude_rejects (filters potable_only) potable_tags = false
  /\ access_rejects (filters potable_only) potable_tags = false
  /\ drinking_water_rejects (filters potable_only) potable_tags = false.
Proof. repeat split; vm_compute; reflexivity. Qed.

(** C1, as stated, fails: with a buffer of 100 m the record of the example
    scenario is rejected under ["potable-only"]. *)
Lemma scenario_record_is_rejected :
  processWaterPoint record route 100 potable_only = None.
Proof.
  apply processWaterPoint_None. left.
  change (node_lat record) with 48.00005%Q. change (node_lon record) with 2.05%Q.
  rewrite record_distance_from_route. unfold JS.gt_xreal.
  destruct (Rlt_dec _ _) as [_ | N]; [ reflexivity | ].
  exfalso. apply N. apply Rmin_glb_lt.
  - pose proof record_far_from_start. rational_constants; lra.
  - pose proof record_far_from_end. rational_constants; lra.
Qed.

(** C1, as the code has it.  The distance from the route is the smallest
    great-circle distance to a vertex of the route; for the record of the
    scenario it exceeds 100 m, so with a buffer of 100 m the record, though
    classified as a fountain, is rejected at the admission step.  With any
    buffer that is not smaller than this distance the record is accepted
    under ["potable-only"], with type fountain and this distance attached. *)
Theorem scenario_record_needs_vertex_distance :
  calculateMinDistanceFromRoute (node_lat record) (node_lon record) route
  = JS.Finite (Rmin (Haversine.calculateDistance 48 2 48.00005 2.05)
                    (Haversine.calculateDistance 48 2.1 48.00005 2.05))
  /\ 100 < Rmin (Haversine.calculateDistance 48 2 48.00005 2.05)
                (Haversine.calculateDistance 48 2.1 48.00005 2.05)
  /\ classify (default ∅ (node_tags record)) = fountain
  /\ processWaterPoint record route 100 potable_only = None
  /\ forall bufferDistance : Q,
       Rmin (Haversine.calculateDistance 48 2 48.00005 2.05)
            (Haversine.calculateDistance 48 2.1 48.00005 2.05) <= Q2R bufferDistance ->
       exists w, processWaterPoint record route bufferDistance potable_only = Some w
                 /\ type w = fountain
                 /\ distanceFromRoute w
                    = JS.Finite (Rmin (Haversine.calculateDistance 48 2 48.00005 2.05)
                                      (Haversine.calculateDistance 48 2.1 48.00005 2.05)).
Proof.
  destruct record_passes_potable_only as (Class & Excl & Acc & Dw).
  split; [ exact record_distance_from_route | ].
  split; [ apply Rmin_glb_lt; [ exact record_far_from_start | exact record_far_from_end ] | ].
  split; [ exact Class | ].
  split.
  - apply processWaterPoint_None. left.
    change (node_lat record) with 48.00005%Q. change (node_lon record) with 2.05%Q.
    rewrite record_distance_from_route. unfold JS.gt_xreal.
    destruct (Rlt_dec _ _) as [_ | N]; [ reflexivity | ].
    exfalso. apply N. apply Rmin_glb_lt.
    + pose proof record_far_from_start. rational_constants; lra.
    + pose proof record_far_from_end. rational_constants; lra.
  - intros bufferDistance Near.
    destruct (processWaterPoint record route bufferDistance potable_only) as [w |] eqn:P.
    + exists w. apply processWaterPoint_Some in P as (_ & _ & Ty & D & _).
      split; [ reflexivity | split ].
      * rewrite Ty. exact Class.
      * rewrite D. exact record_distance_from_route.
    + exfalso. apply processWaterPoint_None in P.
      change (default ∅ (node_tags record)) with potable_tags in P.
      rewrite Excl, Acc, Dw in P.
      destruct P as [G | [G | [G | G]]]; try discriminate.
      change (node_lat record) with 48.00005%Q in G.
      change (node_lon record) with 2.05%Q in G.
      rewrite record_distance_from_route in G. unfold JS.gt_xreal in G.
      destruct (Rlt_dec _ _) as [F | _]; [ lra | discriminate ].
Qed.

End Scenario.

Lemma scenario_record_needs_vertex_distance_witness :
  exists w,
    Overpass.processWaterPoint Examples.record Examples.route 30000000
      Overpass.potable_only = Some w
    /\ Types.type w = Types.fountain.
Proof.
  destruct (proj2 (proj2 (proj2 (proj2 scenario_record_needs_vertex_distance)))
              30000000%Q) as (w & P & Ty & _).
  - eapply Rle_trans; [ apply Rmin_l | ].
    eapply Rle_trans; [ apply calculateDistance_upper | ].
    unfold Q2R; cbn [Qnum Qden]; lra.
  - exists w. split; assumption.
Defined.

(** ** Two runs on concrete inputs *)

Section Runs.

Import Types Overpass Examples.
Local Open Scope R_scope.

Lemma start_node_accepted :
  exists w,
    processWaterPoint
      {| node_lat := 48; node_lon := 2; node_tags := Some potable_tags; node_id := 8 |}
      route 100 potable_only = Some w
    /\ id w = "8" /\ type w = fountain.
Proof.
  destruct (processWaterPoint _ route 100 potable_only) as [w |] eqn:P.
  - exists w. split; [ reflexivity | ].
    unfold processWaterPoint in P.
    repeat match type of P with
           | (if ?c then None else _) = Some _ => destruct c; [ discriminate | ]
           end.
    injection P as <-. split; vm_compute; reflexivity.
  - exfalso. apply processWaterPoint_None in P.
    destruct P as [G | [G | [G | G]]]; try (vm_compute in G; discriminate).
    cbn [node_lat node_lon] in G.
    change (calculateMinDistanceFromRoute 48 2 route)
      with (JS.Finite (Rmin (Haversine.calculateDistance 48 2 48 2)
                            (Haversine.calculateDistance 48 2.1 48 2))) in G.
    rewrite calculateDistance_same in G. unfold JS.gt_xreal in G.
    destruct (Rlt_dec _ _) as [F | _]; [ | discriminate ].
    pose proof (Rmin_l 0 (Haversine.calculateDistance 48 2.1 48 2)).
    revert F. rational_constants. lra.
Qed.

(** A response with a node on latitude 0 and a node on the route: only the
    second one is returned. *)
Lemma zero_latitude_node_screened_out :
  exists w,
    fst (findWaterPoints integerToString bounds_text blank_stringify blank_parse
           online ∅ 0 0 route 100 "potable-only") = [w]
    /\ id w = "8".
Proof.
  destruct start_node_accepted as (w & P & I & _).
  exists w. split; [ | exact I ].
  unfold findWaterPoints.
  change (CacheManager.get (list WaterPoint) blank_parse ∅ 0 _) with
    (@None (list WaterPoint), (∅ : gmap string string)).
  change (select_preset "potable-only") with potable_only.
  unfold online, process_elements.
  cbn [negb fst fold_left zero_latitude_node start_node element_type element_lat
       element_lon element_tags element_id truthy_number default].
  change (String.eqb "node" "node") with true.
  change (JS.is_zero 0) with true. change (JS.is_zero 48) with false.
  change (JS.is_zero 2) with false.
  cbn [negb andb]. unfold Datatypes.id. rewrite P. reflexivity.
Qed.

(** On the route of the single coordinate (2, 48) every query point is given
    the same distance along the route, and it is not 0. *)
Lemma single_point_route_distance (lat lon : Q) :
  findDistanceAlongRoute lat lon single_point_route
  = Haversine.calculateDistance 48 2 0 0
  /\ 100 < findDistanceAlongRoute lat lon single_point_route.
Proof.
  assert (findDistanceAlongRoute lat lon single_point_route
          = Haversine.calculateDistance 48 2 0 0) as E
      by (unfold findDistanceAlongRoute, coordinate_at; cbn; apply Rplus_0_l).
  split; [ exact E | ]. rewrite E.
  apply calculateDistance_far.
  - rational_constants; lra.
  - rational_constants; lra.
  - rewrite Rabs_left; rational_constants; lra.
Qed.

End Runs.

(** * Properties beyond the claims *)

(** ** Great-circle distance *)
Section GreatCircle.

Local Open Scope R_scope.

(** [Math.atan2] of two numbers that are not negative is in [0, PI/2]. *)
Lemma atan2_quadrant (y x : R) : 0 <= y -> 0 <= x -> 0 <= JS.atan2 y x <= PI / 2.
Proof.
  intros Hy Hx. pose proof PI_RGT_0 as P. unfold JS.atan2.
  destruct (Rlt_dec 0 x) as [Px | Nx].
  - pose proof (atan_bound (y / x)) as B.
    assert (0 <= y / x) as Q.
    { unfold Rdiv. apply Rmult_le_pos; [ assumption | ].
      left. now apply Rinv_0_lt_compat. }
    split; [ | lra ].
    destruct Q as [Q | <-]; [ | rewrite atan_0; lra ].
    rewrite <- atan_0. left. now apply atan_increasing.
  - destruct (Rlt_dec x 0); [ lra | ].
    destruct (Rlt_dec 0 y); [ lra | ].
    destruct (Rlt_dec y 0); lra.
Qed.

Lemma haversine_range (lat1 lon1 lat2 lon2 : Q) :
  0 <= Haversine.calculateDistance lat1 lon1 lat2 lon2 <= 6371000 * PI.
Proof.
  unfold Haversine.calculateDistance. cbv zeta.
  match goal with
  | |- context [JS.atan2 (sqrt ?a) (sqrt ?b)] =>
      pose proof (atan2_quadrant (sqrt a) (sqrt b) (sqrt_pos a) (sqrt_pos b)) as B
  end.
  lra.
Qed.

(** Within a quarter turn the term [a] is at most 3/4, and the distance at
    most a third of the circumference. *)
Lemma quarter_turn_bounds (lat1 lon1 lat2 lon2 : Q) :
  Domain.quarter_turn lat1 lon1 lat2 lon2 = true ->
  -90 <= Q2R lat1 <= 90 /\ -90 <= Q2R lat2 <= 90
  /\ -90 <= Q2R (lat2 - lat1) <= 90 /\ -90 <= Q2R (lon2 - lon1) <= 90.
Proof.
  unfold Domain.quarter_turn. rewrite !Bool.andb_true_iff, !Qle_bool_iff.
  intros [[[[[[[A B] C] D] E] F] G] H].
  apply Qle_Rle in A, B, C, D, E, F, G, H.
  replace (Q2R (-90)) with (-90) in * by (unfold Q2R; cbn; lra).
  replace (Q2R 90) with 90 in * by (unfold Q2R; cbn; lra).
  lra.
Qed.

Lemma sin_sq_half (x : R) : - (PI / 4) <= x <= PI / 4 -> sin x * sin x <= 1 / 2.
Proof.
  intros B. pose proof (cos_2a_sin x) as E.
  assert (0 <= cos (2 * x)) as P by (apply cos_ge_0; lra).
  lra.
Qed.

Lemma cos_product_bound (p q : R) :
  - (PI / 2) <= p <= PI / 2 -> - (PI / 2) <= q <= PI / 2 ->
  0 <= cos p * cos q <= 1 - sin ((q - p) / 2) * sin ((q - p) / 2).
Proof.
  intros Bp Bq.
  assert (0 <= cos p) as Cp by (apply cos_ge_0; lra).
  assert (0 <= cos q) as Cq by (apply cos_ge_0; lra).
  split; [ now apply Rmult_le_pos | ].
  pose proof (cos_2a_sin ((q - p) / 2)) as E.
  replace (2 * ((q - p) / 2)) with (q - p) in E by field.
  rewrite cos_minus in E.
  pose proof (COS_bound (q + p)) as [_ U]. rewrite cos_plus in U.
  lra.
Qed.

Lemma quarter_turn_term (lat1 lon1 lat2 lon2 : Q) :
  Domain.quarter_turn lat1 lon1 lat2 lon2 = true ->
  0 <= Domain.haversine_term lat1 lon1 lat2 lon2 <= 3 / 4.
Proof.
  intros T. apply quarter_turn_bounds in T as (B1 & B2 & Blat & Blon).
  pose proof PI_RGT_0 as P.
  unfold Domain.haversine_term. cbv zeta.
  set (u := Q2R (lat2 - lat1) * PI / 180 / 2).
  set (v := Q2R (lon2 - lon1) * PI / 180 / 2).
  set (p := Q2R lat1 * PI / 180). set (q := Q2R lat2 * PI / 180).
  assert (u = (q - p) / 2) as Eu by (unfold u, p, q; rewrite Q2R_minus; field).
  assert (- (PI / 4) <= u <= PI / 4) as Bu by (unfold u; split; nra).
  assert (- (PI / 4) <= v <= PI / 4) as Bv by (unfold v; split; nra).
  assert (- (PI / 2) <= p <= PI / 2) as Bp by (unfold p; split; nra).
  assert (- (PI / 2) <= q <= PI / 2) as Bq by (unfold q; split; nra).
  pose proof (sin_sq_half u Bu) as Su. pose proof (sin_sq_half v Bv) as Sv.
  pose proof (cos_product_bound p q Bp Bq) as [C0 C1]. rewrite <- Eu in C1.
  assert (0 <= sin u * sin u) as Pu by nra.
  assert (0 <= sin v * sin v) as Pv by nra.
  replace (cos p * cos q * sin v * sin v) with ((cos p * cos q) * (sin v * sin v)) by ring.
  revert Su Sv C0 C1 Pu Pv.
  generalize (sin u * sin u) (sin v * sin v) (cos p * cos q).
  intros su sv c Su Sv C0 C1 Pu Pv.
  split; nra.
Qed.

Lemma quarter_turn_distance (lat1 lon1 lat2 lon2 : Q) :
  Domain.quarter_turn lat1 lon1 lat2 lon2 = true ->
  0 <= Haversine.calculateDistance lat1 lon1 lat2 lon2 <= 6371000 * (2 * PI / 3).
Proof.
  intros T. pose proof (quarter_turn_term _ _ _ _ T) as [A0 A1].
  change (Haversine.calculateDistance lat1 lon1 lat2 lon2)
    with (6371000 * (2 * JS.atan2 (sqrt (Domain.haversine_term lat1 lon1 lat2 lon2))
                           (sqrt (1 - Domain.haversine_term lat1 lon1 lat2 lon2)))).
  set (a := Domain.haversine_term lat1 lon1 lat2 lon2) in *.
  pose proof (atan2_quadrant (sqrt a) (sqrt (1 - a)) (sqrt_pos a) (sqrt_pos (1 - a)))
    as [L _].
  split; [ lra | ].
  assert (0 < sqrt (1 - a)) as Px by (apply sqrt_lt_R0; lra).
  unfold JS.atan2. destruct (Rlt_dec 0 (sqrt (1 - a))) as [_ | N]; [ | contradiction ].
  assert (sqrt a / sqrt (1 - a) <= sqrt 3) as Q.
  { rewrite <- sqrt_div_alt by lra. apply sqrt_le_1_alt.
    apply Rmult_le_reg_r with (1 - a); [ lra | ].
    unfold Rdiv. rewrite Rmult_assoc, Rinv_l by lra. lra. }
  assert (atan (sqrt a / sqrt (1 - a)) <= PI / 3) as B.
  { rewrite <- (atan_tan (PI / 3)) by (pose proof PI_RGT_0; lra).
    rewrite tan_PI3.
    destruct Q as [Q | ->]; [ left; now apply atan_increasing | lra ]. }
  lra.
Qed.

Lemma haversine_symmetric (lat1 lon1 lat2 lon2 : Q) :
  Haversine.calculateDistance lat1 lon1 lat2 lon2
  = Haversine.calculateDistance lat2 lon2 lat1 lon1.
Proof.
  - unfold Haversine.calculateDistance. cbv zeta.
    rewrite !Q2R_minus.
    replace ((Q2R lat1 - Q2R lat2) * PI / 180 / 2)
      with (- ((Q2R lat2 - Q2R lat1) * PI / 180 / 2)) by field.
    replace ((Q2R lon1 - Q2R lon2) * PI / 180 / 2)
      with (- ((Q2R lon2 - Q2R lon1) * PI / 180 / 2)) by field.
    rewrite !sin_neg.
    match goal with
    | |- _ * (2 * JS.atan2 (sqrt ?a) (sqrt (1 - ?a))) =
         _ * (2 * JS.atan2 (sqrt ?b) (sqrt (1 - ?b))) =>
        replace b with a by ring
    end.
    reflexivity.
Qed.

Lemma haversine_zero (lat1 lon1 lat2 lon2 : Q) :
  (lat1 == lat2)%Q -> (lon1 == lon2)%Q ->
  Haversine.calculateDistance lat1 lon1 lat2 lon2 = 0.
Proof.
  - intros Elat Elon. unfold Haversine.calculateDistance. cbv zeta.
    rewrite !Q2R_minus, (Qeq_eqR _ _ Elat), (Qeq_eqR _ _ Elon).
    replace ((Q2R lat2 - Q2R lat2) * PI / 180 / 2) with 0 by field.
    replace ((Q2R lon2 - Q2R lon2) * PI / 180 / 2) with 0 by field.
    rewrite sin_0, !Rmult_0_r, Rplus_0_l, Rminus_0_r, sqrt_0, sqrt_1.
    unfold JS.atan2. destruct (Rlt_dec 0 1) as [_ | N]; [ | lra ].
    unfold Rdiv. rewrite Rmult_0_l, atan_0. ring.
Qed.

(** X1.  The great-circle distance of two points within a quarter turn of
    each other is not negative and less than half the circumference of the
    sphere of radius 6371000 m.  (In exact arithmetic it is at most a third
    of the circumference, the term [a] being at most 3/4: the square roots
    are taken far from the value 1 above which [a] cannot go.) *)
Theorem calculateDistance_range (lat1 lon1 lat2 lon2 : Q) :
  Domain.quarter_turn lat1 lon1 lat2 lon2 = true ->
  0 <= Haversine.calculateDistance lat1 lon1 lat2 lon2 < 6371000 * PI.
Proof.
  intros T. pose proof (quarter_turn_distance _ _ _ _ T) as B.
  pose proof PI_RGT_0 as P. lra.
Qed.

(** X2.  The distance from a to b is the distance from b to a, and the
    distance between two points with the same coordinates is 0. *)
Theorem calculateDistance_symmetric (lat1 lon1 lat2 lon2 : Q) :
  Haversine.calculateDistance lat1 lon1 lat2 lon2
  = Haversine.calculateDistance lat2 lon2 lat1 lon1
  /\ ((lat1 == lat2)%Q -> (lon1 == lon2)%Q ->
      Haversine.calculateDistance lat1 lon1 lat2 lon2 = 0).
Proof.
  split; [ apply haversine_symmetric | apply haversine_zero ].
Qed.

End GreatCircle.

(** ** Track parsing, continued *)

Section TrackParsingMore.

Import GpxParser Spec Order.

Lemma number_le_refl (a : number) : isNaN a = false -> number_le a a.
Proof. destruct a; cbn; try discriminate; auto. intros _. apply Qle_refl. Qed.

Lemma number_le_trans (a b c : number) :
  number_le a b -> number_le b c -> number_le a c.
Proof.
  destruct a, b, c; cbn; try tauto. apply Qle_trans.
Qed.

Lemma Math_max_upper (a b : number) :
  isNaN a = false -> isNaN b = false ->
  number_le a (Math_max a b) /\ number_le b (Math_max a b)
  /\ (Math_max a b = a \/ Math_max a b = b).
Proof.
  destruct a as [| | | p], b as [| | | q]; cbn; try discriminate; intros _ _;
    try (repeat split; auto; apply Qle_refl).
  destruct (Math_max_cases p q) as [[H ->] | [H ->]];
    repeat split; auto; apply Qle_refl.
Qed.

Lemma Math_min_lower (a b : number) :
  isNaN a = false -> isNaN b = false ->
  number_le (Math_min a b) a /\ number_le (Math_min a b) b
  /\ (Math_min a b = a \/ Math_min a b = b).
Proof.
  destruct a as [| | | p], b as [| | | q]; cbn; try discriminate; intros _ _;
    try (repeat split; auto; apply Qle_refl).
  destruct (Math_min_cases p q) as [[H ->] | [H ->]];
    repeat split; auto; apply Qle_refl.
Qed.

Lemma fold_max_upper (l : list number) (init : number) :
  isNaN init = false -> List.Forall (fun x => isNaN x = false) l ->
  isNaN (fold_left Math_max l init) = false
  /\ number_le init (fold_left Math_max l init)
  /\ (forall x, In x l -> number_le x (fold_left Math_max l init))
  /\ (fold_left Math_max l init = init \/ In (fold_left Math_max l init) l).
Proof.
  revert init. induction l as [| y l IH]; intros init Hi Hl; cbn [fold_left].
  - repeat split; auto using number_le_refl. intros x [].
  - inversion Hl as [| ? ? Hy Hl']; subst.
    destruct (Math_max_upper init y Hi Hy) as (Li & Ly & Eq).
    assert (isNaN (Math_max init y) = false) as Hm
        by (destruct Eq as [-> | ->]; assumption).
    destruct (IH (Math_max init y) Hm Hl') as (N & L & A & W).
    split; [ exact N | ]. split; [ eapply number_le_trans; eassumption | ].
    split.
    + intros x [<- | Hx]; [ eapply number_le_trans; eassumption | now apply A ].
    + destruct W as [W | W]; [ | right; now right ].
      rewrite W. destruct Eq as [-> | ->]; [ now left | right; now left ].
Qed.

Lemma fold_min_lower (l : list number) (init : number) :
  isNaN init = false -> List.Forall (fun x => isNaN x = false) l ->
  isNaN (fold_left Math_min l init) = false
  /\ number_le (fold_left Math_min l init) init
  /\ (forall x, In x l -> number_le (fold_left Math_min l init) x)
  /\ (fold_left Math_min l init = init \/ In (fold_left Math_min l init) l).
Proof.
  revert init. induction l as [| y l IH]; intros init Hi Hl; cbn [fold_left].
  - repeat split; auto using number_le_refl. intros x [].
  - inversion Hl as [| ? ? Hy Hl']; subst.
    destruct (Math_min_lower init y Hi Hy) as (Li & Ly & Eq).
    assert (isNaN (Math_min init y) = false) as Hm
        by (destruct Eq as [-> | ->]; assumption).
    destruct (IH (Math_min init y) Hm Hl') as (N & L & A & W).
    split; [ exact N | ]. split; [ eapply number_le_trans; eassumption | ].
    split.
    + intros x [<- | Hx]; [ eapply number_le_trans; eassumption | now apply A ].
    + destruct W as [W | W]; [ | right; now right ].
      rewrite W. destruct Eq as [-> | ->]; [ now left | right; now left ].
Qed.

(** A bound over a list that is not empty is one of its elements. *)
Lemma fold_max_attained (l : list number) :
  l <> [] -> List.Forall (fun x => isNaN x = false) l ->
  In (fold_left Math_max l NegInfinity) l.
Proof.
  destruct l as [| y l]; [ congruence | ]. intros _ Hl.
  inversion Hl as [| ? ? Hy Hl']; subst. cbn [fold_left].
  replace (Math_max NegInfinity y) with y by (now destruct y).
  destruct (fold_max_upper l y Hy Hl') as (_ & _ & _ & [-> | W]);
    [ now left | now right ].
Qed.

Lemma fold_min_attained (l : list number) :
  l <> [] -> List.Forall (fun x => isNaN x = false) l ->
  In (fold_left Math_min l PosInfinity) l.
Proof.
  destruct l as [| y l]; [ congruence | ]. intros _ Hl.
  inversion Hl as [| ? ? Hy Hl']; subst. cbn [fold_left].
  replace (Math_min PosInfinity y) with y by (now destruct y).
  destruct (fold_min_lower l y Hy Hl') as (_ & _ & _ & [-> | W]);
    [ now left | now right ].
Qed.

(** No retained coordinate has a [NaN] component. *)
Lemma retained_coordinates_not_NaN (points : list PointElement) :
  List.Forall (fun c => isNaN (fst c) = false /\ isNaN (snd c) = false)
    (retained_coordinates points).
Proof.
  unfold retained_coordinates. apply List.Forall_forall. intros c Hc.
  apply in_map_iff in Hc as (p & <- & Hp). apply filter_In in Hp as [_ Hp].
  unfold retained in Hp. apply andb_prop in Hp as [La Lo].
  cbn. split; [ now destruct (isNaN (parsed_lon p)) | now destruct (isNaN (parsed_lat p)) ].
Qed.

(** What a successful parse returns. *)
Lemma parseGPX_Some (xmlDoc : XmlDocument) (r : GPXData) :
  parseGPX xmlDoc = Some r ->
  parsererror xmlDoc = false
  /\ coordinates r = retained_coordinates (points_of xmlDoc)
  /\ coordinates r <> []
  /\ bounds r = bounds_of (coordinates r)
  /\ totalDistance r = sum_segments (coordinates r).
Proof.
  rewrite parseGPX_retained. destruct (parsererror xmlDoc); [ discriminate | ].
  destruct (retained_coordinates (points_of xmlDoc)) as [| c cs]; [ discriminate | ].
  intros [= <-]. cbn. repeat split; congruence.
Qed.

(** X3.  [parseGPX] returns [null] exactly when the document has a parser
    error or every point it reads (none at all included) has a latitude or
    a longitude that parses to [NaN]. *)
Theorem parseGPX_fails_iff (xmlDoc : XmlDocument) :
  parseGPX xmlDoc = None <->
  parsererror xmlDoc = true
  \/ (forall p, In p (points_of xmlDoc) ->
        isNaN (parsed_lat p) = true \/ isNaN (parsed_lon p) = true).
Proof.
  rewrite parseGPX_retained. unfold retained_coordinates.
  destruct (parsererror xmlDoc); [ intuition | ].
  split.
  - intros H. right. intros p Hp.
    destruct (retained p) eqn:Keep.
    + exfalso.
      assert (In (parsed_lon p, parsed_lat p)
                (List.map (fun p => (parsed_lon p, parsed_lat p))
                   (List.filter retained (points_of xmlDoc)))) as I.
      { apply in_map_iff. exists p. split; [ reflexivity | ].
        apply filter_In. now split. }
      destruct (List.map _ _); [ destruct I | discriminate ].
    + unfold retained in Keep. apply andb_false_iff in Keep.
      destruct Keep as [K | K]; apply negb_false_iff in K; auto.
  - intros [H | H]; [ discriminate | ].
    destruct (List.filter retained (points_of xmlDoc)) as [| p ps] eqn:F; [ reflexivity | ].
    exfalso.
    assert (In p (List.filter retained (points_of xmlDoc))) as I by (rewrite F; now left).
    apply filter_In in I as [Hin Keep]. unfold retained in Keep.
    apply andb_prop in Keep as [La Lo].
    destruct (H p Hin) as [K | K]; rewrite K in *; discriminate.
Qed.

(** X4.  Route points are read only when the document has no track point at
    all: as soon as it has one, valid or not, the route points do not
    matter. *)
Theorem track_points_shadow_route_points
    (xmlDoc : XmlDocument) (other : list PointElement) :
  trkpts xmlDoc <> [] ->
  parseGPX (with_rtepts xmlDoc other) = parseGPX xmlDoc.
Proof.
  intros H. rewrite !parseGPX_retained. unfold points_of, with_rtepts. cbn.
  destruct (trkpts xmlDoc); [ congruence | reflexivity ].
Qed.

(** X5.  The bounds of a parsed route are the tightest box around its
    coordinates: every coordinate is inside, and each of the four bounds is
    the latitude or the longitude of one of the coordinates. *)
Theorem parseGPX_bounds_tight (xmlDoc : XmlDocument) (r : GPXData) :
  parseGPX xmlDoc = Some r ->
  (forall c, In c (coordinates r) ->
     number_le (west (bounds r)) (fst c) /\ number_le (fst c) (east (bounds r))
     /\ number_le (south (bounds r)) (snd c) /\ number_le (snd c) (north (bounds r)))
  /\ In (north (bounds r)) (List.map snd (coordinates r))
  /\ In (south (bounds r)) (List.map snd (coordinates r))
  /\ In (east (bounds r)) (List.map fst (coordinates r))
  /\ In (west (bounds r)) (List.map fst (coordinates r)).
Proof.
  intros P. apply parseGPX_Some in P as (_ & C & NE & B & _).
  pose proof (retained_coordinates_not_NaN (points_of xmlDoc)) as NN.
  rewrite <- C in NN. rewrite B. unfold bounds_of. cbn.
  assert (List.Forall (fun x => isNaN x = false) (List.map fst (coordinates r))) as Ff.
  { apply List.Forall_forall. intros x Hx. apply in_map_iff in Hx as (c & <- & Hc).
    apply (proj1 (List.Forall_forall _ _) NN c Hc). }
  assert (List.Forall (fun x => isNaN x = false) (List.map snd (coordinates r))) as Fs.
  { apply List.Forall_forall. intros x Hx. apply in_map_iff in Hx as (c & <- & Hc).
    apply (proj1 (List.Forall_forall _ _) NN c Hc). }
  assert (List.map fst (coordinates r) <> []) as NEf by (now destruct (coordinates r)).
  assert (List.map snd (coordinates r) <> []) as NEs by (now destruct (coordinates r)).
  split; [ | auto using fold_max_attained, fold_min_attained ].
  intros c Hc.
  destruct (fold_max_upper _ NegInfinity eq_refl Ff) as (_ & _ & Ue & _).
  destruct (fold_max_upper _ NegInfinity eq_refl Fs) as (_ & _ & Un & _).
  destruct (fold_min_lower _ PosInfinity eq_refl Ff) as (_ & _ & Lw & _).
  destruct (fold_min_lower _ PosInfinity eq_refl Fs) as (_ & _ & Ls & _).
  repeat split; [ apply Lw | apply Ue | apply Ls | apply Un ]; now apply in_map.
Qed.

End TrackParsingMore.

Section TotalDistance.

Import GpxParser Spec Order.

Lemma finite_pair_distance (a b : number * number) :
  finite_pair a = true -> finite_pair b = true ->
  exists d, calculateDistance (snd a) (fst a) (snd b) (fst b) = Meters d /\ (0 <= d)%R.
Proof.
  destruct a as [[| | | x] [| | | y]], b as [[| | | z] [| | | t]]; cbn; try discriminate.
  intros _ _. eexists. split; [ reflexivity | ]. apply haversine_range.
Qed.

Lemma infinite_pair_distance (a b : number * number) :
  finite_pair a = false \/ finite_pair b = false ->
  calculateDistance (snd a) (fst a) (snd b) (fst b) = NaN_distance.
Proof.
  destruct a as [[| | | x] [| | | y]], b as [[| | | z] [| | | t]]; cbn;
    intros [H | H]; try reflexivity; discriminate.
Qed.

Lemma sum_finite (cs : list (number * number)) (l : list nat) (d0 : R) :
  forallb finite_pair cs = true ->
  List.Forall (fun i => (1 <= i < length cs)%nat) l ->
  (0 <= d0)%R ->
  exists d, fold_left (segment_step cs) l (Meters d0) = Meters d /\ (0 <= d)%R.
Proof.
  intros Fin. revert d0. induction l as [| i l IH]; intros d0 Hl Hd; cbn [fold_left].
  - eauto.
  - inversion Hl as [| ? ? Hi Hl']; subst.
    assert (forall j, (j < length cs)%nat -> finite_pair (coordinate_at cs j) = true) as At.
    { intros j Hj. apply (proj1 (forallb_forall _ _) Fin). now apply nth_In. }
    destruct (finite_pair_distance (coordinate_at cs (i - 1)) (coordinate_at cs i))
      as (d & E & Pd); [ apply At; lia | apply At; lia | ].
    unfold segment_step at 2. rewrite E. cbn [add_distance].
    apply IH; [ assumption | lra ].
Qed.

Lemma sum_NaN_absorbing (cs : list (number * number)) (l : list nat) :
  fold_left (segment_step cs) l NaN_distance = NaN_distance.
Proof. induction l as [| i l IH]; cbn; [ reflexivity | exact IH ]. Qed.

Lemma sum_infinite (cs : list (number * number)) (l : list nat) (i : nat) (acc : distance) :
  In i l ->
  finite_pair (coordinate_at cs (i - 1)) = false \/ finite_pair (coordinate_at cs i) = false ->
  fold_left (segment_step cs) l acc = NaN_distance.
Proof.
  intros Hin Bad. revert acc. induction l as [| j l IH]; intros acc; [ destruct Hin | ].
  cbn [fold_left]. destruct Hin as [-> | Hin]; [ | now apply IH ].
  unfold segment_step at 2. rewrite (infinite_pair_distance _ _ Bad).
  replace (add_distance acc NaN_distance) with NaN_distance by (now destruct acc).
  apply sum_NaN_absorbing.
Qed.

Lemma local_track_finite (cs : list (number * number)) :
  Domain.local_track cs = true -> forallb finite_pair cs = true.
Proof.
  intros L. apply forallb_forall. intros c Hc.
  unfold Domain.local_track in L.
  pose proof (proj1 (forallb_forall _ _) L c Hc) as Lc.
  pose proof (proj1 (forallb_forall _ _) Lc c Hc) as Lcc.
  destruct c as [[| | | x] [| | | y]]; cbn in Lcc; try discriminate. reflexivity.
Qed.

(** X6.  The total distance of a parsed route is 0 for a single coordinate,
    a number of meters that is not negative when the coordinates are finite
    and within a quarter turn of each other, and [NaN] when there are at
    least two coordinates and one of them is infinite. *)
Theorem parseGPX_totalDistance (xmlDoc : XmlDocument) (r : GPXData) :
  parseGPX xmlDoc = Some r ->
  (length (coordinates r) = 1%nat -> totalDistance r = Meters 0)
  /\ (Domain.local_track (coordinates r) = true ->
      exists d, totalDistance r = Meters d /\ (0 <= d)%R)
  /\ ((2 <= length (coordinates r))%nat ->
      (exists c, In c (coordinates r) /\ finite_pair c = false) ->
      totalDistance r = NaN_distance).
Proof.
  intros P. apply parseGPX_Some in P as (_ & _ & _ & _ & ->).
  unfold sum_segments. fold (segment_step (coordinates r)).
  split; [ | split ].
  - intros ->. reflexivity.
  - intros Local. apply sum_finite; [ now apply local_track_finite | | lra ].
    apply List.Forall_forall. intros i Hi. apply in_seq in Hi. lia.
  - intros Two (c & Hc & Bad).
    apply In_nth with (d := (NaN, NaN)) in Hc as (j & Hj & Ej).
    destruct j as [| j].
    + apply (sum_infinite _ _ 1%nat); [ apply in_seq; lia | ].
      left. cbn [Nat.sub]. unfold coordinate_at. now rewrite Ej.
    + apply (sum_infinite _ _ (S j)); [ apply in_seq; lia | ].
      right. unfold coordinate_at. now rewrite Ej.
Qed.

End TotalDistance.

(** ** The cache, continued *)

Section CacheMore.

Import Types CacheManager.

Variable T : Type.
Variable JSON_stringify_bounds : Bounds -> string.
Variable JSON_stringify : CacheEntry T -> string.
Variable JSON_parse : string -> option (CacheEntry T).

Lemma In_keys (localStorage : gmap string string) (k : string) :
  In k (keys localStorage) <-> is_Some (localStorage !! k).
Proof.
  unfold keys. rewrite <- list_elem_of_In, list_elem_of_fmap. split.
  - intros ([k' v] & -> & H). apply elem_of_map_to_list in H. cbn. eauto.
  - intros [v H]. exists (k, v). split; [ reflexivity | ].
    now apply elem_of_map_to_list.
Qed.

(** The loop of [clear] over any list of keys. *)
Lemma clear_loop_other (l : list string) (m : gmap string string) (k : string) :
  String.prefix CACHE_PREFIX k = false ->
  fold_left
    (fun st key => if String.prefix CACHE_PREFIX key then delete key st else st) l m !! k
  = m !! k.
Proof.
  intros Pk. revert m. induction l as [| j l IH]; intros m; cbn [fold_left]; [ reflexivity | ].
  rewrite IH. destruct (String.prefix CACHE_PREFIX j) eqn:Pj; [ | reflexivity ].
  apply lookup_delete_ne. intros ->. congruence.
Qed.

Lemma clear_loop_absent (l : list string) (m : gmap string string) (k : string) :
  m !! k = None ->
  fold_left
    (fun st key => if String.prefix CACHE_PREFIX key then delete key st else st) l m !! k
  = None.
Proof.
  revert m. induction l as [| j l IH]; intros m H; cbn [fold_left]; [ exact H | ].
  apply IH. destruct (String.prefix CACHE_PREFIX j); [ | exact H ].
  destruct (decide (j = k)) as [-> | Ne];
    [ apply lookup_delete_eq | now rewrite lookup_delete_ne ].
Qed.

Lemma clear_loop_removed (l : list string) (m : gmap string string) (k : string) :
  String.prefix CACHE_PREFIX k = true -> In k l ->
  fold_left
    (fun st key => if String.prefix CACHE_PREFIX key then delete key st else st) l m !! k
  = None.
Proof.
  intros Pk. revert m. induction l as [| j l IH]; intros m Hin; [ destruct Hin | ].
  cbn [fold_left]. destruct Hin as [-> | Hin]; [ | now apply IH ].
  rewrite Pk. apply clear_loop_absent, lookup_delete_eq.
Qed.

Lemma clear_lookup (localStorage : gmap string string) (k : string) :
  clear localStorage !! k
  = if String.prefix CACHE_PREFIX k then None else localStorage !! k.
Proof.
  unfold clear. destruct (String.prefix CACHE_PREFIX k) eqn:Pk.
  - destruct (localStorage !! k) as [v |] eqn:L.
    + apply clear_loop_removed; [ exact Pk | ]. apply In_keys. rewrite L. eauto.
    + now apply clear_loop_absent.
  - now apply clear_loop_other.
Qed.

(** X7.  [clear] removes every entry whose key starts with the prefix of the
    cache and leaves every other entry of the storage as it is. *)
Theorem clear_removes_namespace_only (localStorage : gmap string string) (k : string) :
  (String.prefix CACHE_PREFIX k = true -> clear localStorage !! k = None)
  /\ (String.prefix CACHE_PREFIX k = false -> clear localStorage !! k = localStorage !! k).
Proof.
  rewrite clear_lookup. split; intros ->; reflexivity.
Qed.

Lemma getCacheInfo_loop_skips (m : gmap string string) (l : list string) (info : CacheInfo) :
  List.Forall (fun key => String.prefix CACHE_PREFIX key = false) l ->
  fold_left
    (fun info key =>
       if String.prefix CACHE_PREFIX key then
         {| totalEntries := S (totalEntries info);
            totalSize :=
              match m !! key with
              | Some item =>
                  if JS.truthy_string item then totalSize info + String.length item
                  else totalSize info
              | None => totalSize info
              end |}
       else info) l info = info.
Proof.
  induction 1 as [| k l Hk _ IH]; cbn [fold_left]; [ reflexivity | ].
  now rewrite Hk.
Qed.

(** X8.  After [clear], [getCacheInfo] reports no entry and no byte, whatever
    the storage held: the numbers the settings panel shows after clearing. *)
Theorem getCacheInfo_after_clear (localStorage : gmap string string) :
  getCacheInfo (clear localStorage) = {| totalEntries := 0; totalSize := 0 |}.
Proof.
  unfold getCacheInfo. apply getCacheInfo_loop_skips.
  apply List.Forall_forall. intros k Hk. apply In_keys in Hk as [v Hv].
  rewrite clear_lookup in Hv.
  destruct (String.prefix CACHE_PREFIX k); [ discriminate | reflexivity ].
Qed.

(** X9.  [get] answers a value only from an entry that is stored under the
    key, parses, and is at most one hour old, and then leaves the storage
    untouched; it answers [null] for a key that is not stored; and it never
    changes what is stored under another key. *)
Theorem get_sound (localStorage : gmap string string) (now : Z) (key : string) :
  (forall v, fst (get T JSON_parse localStorage now key) = Some v ->
     exists item entry,
       localStorage !! key = Some item /\ JSON_parse item = Some entry
       /\ data entry = v /\ (now - timestamp entry <= CACHE_DURATION)%Z
       /\ snd (get T JSON_parse localStorage now key) = localStorage)
  /\ (localStorage !! key = None ->
      get T JSON_parse localStorage now key = (None, localStorage))
  /\ (forall other, other <> key ->
        snd (get T JSON_parse localStorage now key) !! other = localStorage !! other).
Proof.
  unfold get. split; [ | split ].
  - intros v. destruct (localStorage !! key) as [item |]; [ | discriminate ].
    destruct (JS.truthy_string item); cbn [negb]; [ | discriminate ].
    destruct (JSON_parse item) as [entry |] eqn:P; [ | discriminate ].
    destruct (Z.gtb_spec (now - timestamp entry) CACHE_DURATION); [ discriminate | ].
    cbn. intros [= <-]. exists item, entry. repeat split; auto; lia.
  - now intros ->.
  - intros other Ne. destruct (localStorage !! key) as [item |]; [ | reflexivity ].
    destruct (JS.truthy_string item); cbn [negb]; [ | reflexivity ].
    destruct (JSON_parse item) as [entry |]; [ | reflexivity ].
    destruct (_ >? _)%Z; [ | reflexivity ].
    cbn. now apply lookup_delete_ne.
Qed.

Lemma keys_insert_fresh (m : gmap string string) (k v : string) :
  m !! k = None -> Permutation (keys (<[k := v]> m)) (k :: keys m).
Proof.
  intros H. unfold keys. now rewrite (map_to_list_insert m k v H).
Qed.

Lemma keys_insert_present (m : gmap string string) (k v : string) :
  is_Some (m !! k) -> Permutation (keys (<[k := v]> m)) (keys m).
Proof.
  intros [x H]. rewrite <- (insert_delete_eq m k v).
  rewrite keys_insert_fresh by apply lookup_delete_eq.
  exact (keys_delete m k x H).
Qed.

(** X10.  [set] overwrites: of two writes under one key only the second is
    stored.  It leaves the other keys alone, and the count of
    [getCacheInfo] grows by one exactly when the key is new and in the
    namespace of the cache. *)
Theorem set_overwrites (localStorage : gmap string string) (now now' : Z)
    (k : string) (v v' : T) (bounds bounds' : Bounds) (bufferDistance bufferDistance' : Q) :
  set T JSON_stringify_bounds JSON_stringify
    (set T JSON_stringify_bounds JSON_stringify localStorage now k v bounds bufferDistance)
    now' k v' bounds' bufferDistance'
  = set T JSON_stringify_bounds JSON_stringify localStorage now' k v' bounds' bufferDistance'
  /\ (forall other, other <> k ->
        set T JSON_stringify_bounds JSON_stringify localStorage now k v bounds bufferDistance
          !! other = localStorage !! other)
  /\ totalEntries
       (getCacheInfo
          (set T JSON_stringify_bounds JSON_stringify localStorage now k v bounds bufferDistance))
     = (if String.prefix CACHE_PREFIX k && bool_decide (localStorage !! k = None)
        then S (totalEntries (getCacheInfo localStorage))
        else totalEntries (getCacheInfo localStorage)).
Proof.
  unfold set. split; [ apply insert_insert_eq | split ].
  - intros other Ne. now apply lookup_insert_ne.
  - rewrite !totalEntries_count.
    destruct (localStorage !! k) as [x |] eqn:L.
    + rewrite (bool_decide_eq_false_2 (Some x = None)) by discriminate.
      rewrite andb_false_r.
      apply filter_length_Permutation, keys_insert_present. rewrite L. eauto.
    + rewrite (bool_decide_eq_true_2 (None = None)) by reflexivity.
      rewrite andb_true_r.
      rewrite (filter_length_Permutation _ _ _ (keys_insert_fresh _ k _ L)).
      cbn [List.filter]. now destruct (String.prefix CACHE_PREFIX k).
Qed.

End CacheMore.

Section CacheKeysMore.

Import Types CacheManager.

Lemma nearest_scaled_close (x : Q) :
  (inject_Z (nearest_scaled x 4) - (1 # 2) <= x * 10000
   /\ x * 10000 < inject_Z (nearest_scaled x 4) + (1 # 2))%Q.
Proof.
  unfold nearest_scaled.
  change (inject_Z (10 ^ Z.of_nat 4)) with 10000%Q.
  pose proof (Qfloor_le (x * 10000 + (1 # 2))) as L.
  pose proof (Qlt_floor (x * 10000 + (1 # 2))) as U.
  rewrite inject_Z_plus in U. change (inject_Z 1) with 1%Q in U.
  revert L U. generalize (inject_Z (Qfloor (x * 10000 + (1 # 2)))). intros n L U.
  split; lra.
Qed.

(** X11.  The collisions of the key are fine-grained: two numbers with the
    same rounding to four decimals are less than 0.0001 apart. *)
Theorem same_rounding_close (x y : Q) :
  Spec.same_rounding x y -> (x - y < (1 # 10000) /\ y - x < (1 # 10000))%Q.
Proof.
  intros (Side & _ & _ & Near).
  rewrite <- Side in Near.
  pose proof (nearest_scaled_close (if negb (Qle_bool 0 x) then - x else x)) as Hx.
  pose proof (nearest_scaled_close (if negb (Qle_bool 0 x) then - y else y)) as Hy.
  rewrite Near in Hx. revert Hx Hy.
  generalize (inject_Z (nearest_scaled (if negb (Qle_bool 0 x) then - y else y) 4)).
  intros n Hx Hy.
  destruct (Qle_bool 0 x); cbn [negb] in *; split; lra.
Qed.

End CacheKeysMore.

(** ** Filtering, continued *)

Section FilteringMore.

Import Types Overpass Rules.
Local Open Scope R_scope.

Lemma insert_sorted_sorted (a : WaterPoint) (l : list WaterPoint) :
  StronglySorted start_le l -> StronglySorted start_le (insert_sorted a l).
Proof.
  induction 1 as [| b l Sl IH Hb]; cbn.
  - repeat constructor.
  - destruct (Rle_dec _ _) as [Le | Gt].
    + constructor; [ now constructor | ].
      constructor; [ exact Le | ].
      eapply List.Forall_impl; [ | exact Hb ].
      intros c Hc. unfold start_le in *. lra.
    + constructor; [ exact IH | ].
      apply List.Forall_forall. intros c Hc.
      apply (Permutation_in _ (insert_sorted_Permutation a l)) in Hc.
      destruct Hc as [<- | Hc]; [ unfold start_le; lra | ].
      apply (proj1 (List.Forall_forall _ _) Hb c Hc).
Qed.

Lemma sort_sorted (l : list WaterPoint) : StronglySorted start_le (sort l).
Proof.
  induction l as [| a l IH]; cbn; [ constructor | now apply insert_sorted_sorted ].
Qed.

Lemma sort_of_sorted (l : list WaterPoint) : StronglySorted start_le l -> sort l = l.
Proof.
  induction 1 as [| a l Sl IH Ha]; cbn; [ reflexivity | ].
  fold (sort l). rewrite IH. destruct l as [| b l]; [ reflexivity | ].
  cbn. inversion Ha as [| ? ? Hab _]; subst.
  destruct (Rle_dec _ _) as [_ | N]; [ reflexivity | contradiction ].
Qed.

(** X12.  The sort of [findWaterPoints] returns the same water points in
    ascending order of distance from the start, and leaves a list that is
    already in that order as it is (points at equal distance keep their
    order). *)
Theorem sort_by_distance_from_start (l : list WaterPoint) :
  StronglySorted start_le (sort l)
  /\ Permutation (sort l) l
  /\ (StronglySorted start_le l -> sort l = l).
Proof.
  split; [ apply sort_sorted | split; [ apply sort_Permutation | apply sort_of_sorted ] ].
Qed.

(** The minimum over the vertices, for any starting value. *)
Lemma min_distance_loop (lat lon : Q) (cs : list (Q * Q)) (d0 : R) :
  exists d,
    fold_left
      (fun minDistance coord =>
         JS.Math_min_xreal minDistance
           (Haversine.calculateDistance (snd coord) (fst coord) lat lon))
      cs (JS.Finite d0) = JS.Finite d
    /\ d <= d0
    /\ (forall c, In c cs -> d <= Haversine.calculateDistance (snd c) (fst c) lat lon)
    /\ (d = d0 \/ exists c, In c cs /\ d = Haversine.calculateDistance (snd c) (fst c) lat lon).
Proof.
  revert d0. induction cs as [| c cs IH]; intros d0; cbn [fold_left].
  - exists d0. repeat split; [ lra | intros c [] | now left ].
  - cbn [JS.Math_min_xreal].
    destruct (IH (Rmin d0 (Haversine.calculateDistance (snd c) (fst c) lat lon)))
      as (d & E & Le & All & Att).
    exists d. split; [ exact E | ].
    pose proof (Rmin_l d0 (Haversine.calculateDistance (snd c) (fst c) lat lon)).
    pose proof (Rmin_r d0 (Haversine.calculateDistance (snd c) (fst c) lat lon)).
    split; [ lra | split ].
    + intros c' [<- | Hc]; [ lra | now apply All ].
    + destruct Att as [-> | (c' & Hc & ->)].
      * unfold Rmin. destruct (Rle_dec _ _); [ now left | ].
        right. exists c. split; [ now left | reflexivity ].
      * right. exists c'. split; [ now right | reflexivity ].
Qed.

Lemma min_distance_from_route (lat lon : Q) (gpxData : GPXData) :
  (coordinates gpxData = [] ->
   calculateMinDistanceFromRoute lat lon gpxData = JS.Infinity)
  /\ (coordinates gpxData <> [] ->
      exists d,
        calculateMinDistanceFromRoute lat lon gpxData = JS.Finite d
        /\ (forall c, In c (coordinates gpxData) ->
              d <= Haversine.calculateDistance (snd c) (fst c) lat lon)
        /\ (exists c, In c (coordinates gpxData)
                      /\ d = Haversine.calculateDistance (snd c) (fst c) lat lon)).
Proof.
  unfold calculateMinDistanceFromRoute. split.
  - intros ->. reflexivity.
  - destruct (coordinates gpxData) as [| c cs]; [ congruence | ]. intros _.
    cbn [fold_left JS.Math_min_xreal].
    destruct (min_distance_loop lat lon cs
                (Haversine.calculateDistance (snd c) (fst c) lat lon))
      as (d & E & Le & All & Att).
    exists d. split; [ exact E | split ].
    + intros c' [<- | Hc]; [ exact Le | now apply All ].
    + destruct Att as [-> | (c' & Hc & ->)].
      * exists c. split; [ now left | reflexivity ].
      * exists c'. split; [ now right | reflexivity ].
Qed.

(** X13.  The distance from the route is [Infinity] for a route without
    coordinates; for a route whose vertices are within a quarter turn of the
    point it is the distance to one of the vertices, and no vertex is
    nearer. *)
Theorem calculateMinDistanceFromRoute_is_vertex_minimum (lat lon : Q) (gpxData : GPXData) :
  (coordinates gpxData = [] ->
   calculateMinDistanceFromRoute lat lon gpxData = JS.Infinity)
  /\ (coordinates gpxData <> [] ->
      Domain.near_route lat lon gpxData = true ->
      exists d,
        calculateMinDistanceFromRoute lat lon gpxData = JS.Finite d
        /\ (forall c, In c (coordinates gpxData) ->
              d <= Haversine.calculateDistance (snd c) (fst c) lat lon)
        /\ (exists c, In c (coordinates gpxData)
                      /\ d = Haversine.calculateDistance (snd c) (fst c) lat lon)).
Proof.
  split; [ apply min_distance_from_route | ].
  intros NonEmpty _. now apply min_distance_from_route.
Qed.

End FilteringMore.

Section AcceptedPoints.

Import Types Overpass Rules.
Local Open Scope R_scope.

(** X14.  A water point that [processWaterPoint] accepts, made from a node
    within a quarter turn of the vertices of the route, lies on a route with
    at least one coordinate, is not farther from the nearest vertex than the
    buffer nor than from the start, matches no exclusion of the preset, and
    has, when the preset has the allow-list, no access tag and no
    [drinking_water] tag with a non-empty value outside of it. *)
Theorem accepted_point_satisfies_preset
    (element : Node) (gpxData : GPXData) (bufferDistance : Q)
    (preset : WaterFilterPreset) (w : WaterPoint) :
  Domain.near_route (node_lat element) (node_lon element) gpxData = true ->
  processWaterPoint element gpxData bufferDistance preset = Some w ->
  coordinates gpxData <> []
  /\ (exists d, distanceFromRoute w = JS.Finite d
                /\ 0 <= d <= Q2R bufferDistance /\ d <= distanceFromStart w)
  /\ (forall excluded s, exclude_tags (filters preset) = Some excluded ->
        In s excluded -> matches_exclude (tags w) s = false)
  /\ (forall allowed v, access (filters preset) = Some allowed ->
        tags w !! "access" = Some v -> v = "" \/ In v allowed)
  /\ (forall allowed v, drinking_water (filters preset) = Some allowed ->
        tags w !! "drinking_water" = Some v -> v = "" \/ In v allowed).
Proof.
  intros _. unfold processWaterPoint.
  destruct (JS.gt_xreal _ _) eqn:G; [ discriminate | ].
  destruct (exclude_rejects _ _) eqn:E; [ discriminate | ].
  destruct (access_rejects _ _) eqn:A; [ discriminate | ].
  destruct (drinking_water_rejects _ _) eqn:D; [ discriminate | ].
  intros [= <-]. cbn [distanceFromRoute distanceFromStart tags].
  assert (coordinates gpxData <> []) as NE.
  { intros Empty. unfold calculateMinDistanceFromRoute in G. rewrite Empty in G.
    discriminate. }
  split; [ exact NE | ]. split; [ | split; [ | split ] ].
  - destruct (min_distance_from_route
                (node_lat element) (node_lon element) gpxData) as [_ Min].
    destruct (Min NE) as (d & Ed & All & (c & Hc & Ec)).
    exists d. split; [ exact Ed | ]. rewrite Ed in G. unfold JS.gt_xreal in G.
    destruct (Rlt_dec _ _); [ discriminate | ].
    pose proof (haversine_range (snd c) (fst c) (node_lat element) (node_lon element)).
    split; [ lra | ].
    unfold calculateDistanceFromStart.
    destruct (coordinates gpxData) as [| s cs]; [ congruence | ].
    apply All. now left.
  - intros excluded s Ex Hs. unfold exclude_rejects in E. rewrite Ex in E.
    destruct (matches_exclude _ s) eqn:M; [ | reflexivity ].
    assert (existsb (matches_exclude (default ∅ (node_tags element))) excluded = true) as C
        by (apply existsb_exists; eauto).
    congruence.
  - intros allowed v Al Tv. unfold access_rejects in A. rewrite Al, Tv in A.
    destruct v as [| c v]; [ now left | right ].
    cbn [JS.truthy_string andb] in A. apply includes_In.
    now destruct (includes allowed (String c v)).
  - intros allowed v Al Tv. unfold drinking_water_rejects in D. rewrite Al, Tv in D.
    destruct v as [| c v]; [ now left | right ].
    cbn [JS.truthy_string andb] in D. apply includes_In.
    now destruct (includes allowed (String c v)).
Qed.

(** X15.  The list of accepted types of a preset is never read: a preset
    filters and queries the same way with any other list, or with none. *)
Theorem include_types_is_ignored (preset : WaterFilterPreset) (types : option (list string)) :
  (forall element gpxData bufferDistance,
      processWaterPoint element gpxData bufferDistance (with_include_types preset types)
      = processWaterPoint element gpxData bufferDistance preset)
  /\ (forall numberToString gpxData bufferDistance,
         buildOverpassQuery numberToString gpxData bufferDistance
           (with_include_types preset types)
         = buildOverpassQuery numberToString gpxData bufferDistance preset).
Proof. split; reflexivity. Qed.

Lemma split_free (s : string) : free_of "=" s = true -> JS.split "=" s = [s].
Proof.
  induction s as [| c s IH]; cbn [JS.split free_of]; [ reflexivity | ].
  intros H. apply andb_prop in H as [Hc Hs].
  destruct (Ascii.eqb c "=") eqn:E; [ discriminate | ]. now rewrite IH.
Qed.

Lemma split_key_value (k v : string) :
  free_of "=" k = true -> free_of "=" v = true ->
  JS.split "=" (k ++ "=" ++ v) = [k; v].
Proof.
  intros Hk Hv. induction k as [| c k IH].
  - change ("" ++ "=" ++ v) with (String "=" v). cbn [JS.split].
    rewrite Ascii.eqb_refl. now rewrite split_free.
  - change (String c k ++ "=" ++ v) with (String c (k ++ "=" ++ v)).
    cbn [JS.split free_of] in *. apply andb_prop in Hk as [Hc Hk].
    destruct (Ascii.eqb c "=") eqn:E; [ discriminate | ].
    now rewrite IH.
Qed.

(** X16.  An exclusion [key=value] (neither with a ['='] inside) matches
    exactly the records whose tag [key] is [value]; an exclusion without
    ['='] matches exactly the records that do not have the tag, unless it
    names a member every object inherits, which it never matches. *)
Theorem exclusion_matches (tags : gmap string string) (k v : string) :
  free_of "=" k = true -> free_of "=" v = true ->
  (matches_exclude tags (k ++ "=" ++ v) = true <-> tags !! k = Some v)
  /\ (matches_exclude tags k = true <-> tags !! k = None /\ inherited k = false).
Proof.
  intros Hk Hv. unfold matches_exclude.
  rewrite split_key_value, split_free by assumption.
  cbn [hd lookup list_lookup].
  destruct (tags !! k) as [own |]; split.
  - rewrite bool_decide_eq_true. reflexivity.
  - rewrite bool_decide_eq_true. split; [ discriminate | intros [? _]; discriminate ].
  - destruct (inherited k); [ | rewrite bool_decide_eq_true ];
      split; intros ?; discriminate.
  - destruct (inherited k); [ | rewrite bool_decide_eq_true ].
    + split; [ discriminate | intros [_ ?]; discriminate ].
    + split; [ intros _; split; reflexivity | reflexivity ].
Qed.

(** X17.  [select_preset] answers the preset of the catalogue with the id
    asked for, and the first one, ["potable-only"], for any other id. *)
Theorem select_preset_fallback (filterPreset : string) :
  In (select_preset filterPreset) WATER_FILTER_PRESETS
  /\ (preset_id (select_preset filterPreset) = filterPreset
      \/ (select_preset filterPreset = potable_only
          /\ forall p, In p WATER_FILTER_PRESETS -> preset_id p <> filterPreset)).
Proof.
  unfold select_preset.
  destruct (find _ WATER_FILTER_PRESETS) as [p |] eqn:F.
  - apply find_some in F as [Hin E]. apply String.eqb_eq in E. auto.
  - split; [ now left | right ]. split; [ reflexivity | ].
    intros p Hp E. apply (find_none _ _ F) in Hp. apply String.eqb_neq in Hp. contradiction.
Qed.

End AcceptedPoints.

(** ** Distance along the route, continued *)

Section AlongRoute.

Import Types Overpass Along.
Local Open Scope R_scope.

Lemma closest_scan (lat lon : Q) (gpxData : GPXData) (n : nat) :
  (1 <= n)%nat ->
  exists i,
    (i < n)%nat
    /\ fold_left (closest_step lat lon gpxData) (seq 0 n)
         {| minDistance := JS.Infinity; closestSegmentIndex := 0;
            closestPointOnSegment := (0%Q, 0%Q) |}
       = {| minDistance := JS.Finite (projection_distance lat lon gpxData i);
            closestSegmentIndex := i;
            closestPointOnSegment := projection lat lon gpxData i |}
    /\ (forall j, (j < n)%nat ->
          projection_distance lat lon gpxData i <= projection_distance lat lon gpxData j)
    /\ (forall j, (j < i)%nat ->
          projection_distance lat lon gpxData i < projection_distance lat lon gpxData j).
Proof.
  induction n as [| n IH]; [ lia | ]. intros _.
  destruct n as [| n].
  - exists 0%nat. split; [ lia | ]. split; [ reflexivity | ]. split.
    + intros j Hj. replace j with 0%nat by lia. lra.
    + intros j Hj. lia.
  - destruct IH as (i & Hi & E & Min & First); [ lia | ].
    rewrite seq_S, fold_left_app, E. cbn [fold_left Nat.add].
    unfold closest_step at 1. cbn [minDistance JS.lt_xreal].
    fold (projection lat lon gpxData (S n)).
    fold (projection_distance lat lon gpxData (S n)).
    destruct (Rlt_dec _ _) as [Lt | Ge].
    + exists (S n). split; [ lia | ]. split; [ reflexivity | ]. split.
      * intros j Hj. destruct (Nat.eq_dec j (S n)) as [-> | Ne]; [ lra | ].
        assert (j < S n)%nat as Hj' by lia. specialize (Min j Hj'). lra.
      * intros j Hj. specialize (Min j Hj). lra.
    + exists i. split; [ lia | ]. split; [ reflexivity | ]. split.
      * intros j Hj. destruct (Nat.eq_dec j (S n)) as [-> | Ne]; [ lra | ].
        apply Min. lia.
      * exact First.
Qed.

Lemma length_loop_nonneg (gpxData : GPXData) (l : list nat) (acc : R) :
  0 <= acc ->
  0 <= fold_left
         (fun total j =>
            total + Haversine.calculateDistance
                      (snd (coordinate_at gpxData j)) (fst (coordinate_at gpxData j))
                      (snd (coordinate_at gpxData (j + 1)))
                      (fst (coordinate_at gpxData (j + 1))))
         l acc.
Proof.
  revert acc. induction l as [| j l IH]; intros acc Hacc; cbn [fold_left]; [ exact Hacc | ].
  apply IH.
  pose proof (haversine_range
                (snd (coordinate_at gpxData j)) (fst (coordinate_at gpxData j))
                (snd (coordinate_at gpxData (j + 1))) (fst (coordinate_at gpxData (j + 1)))).
  lra.
Qed.

Lemma length_before_nonneg (gpxData : GPXData) (i : nat) : 0 <= length_before gpxData i.
Proof. unfold length_before. apply length_loop_nonneg. lra. Qed.

(** [findDistanceAlongRoute] on a route of two coordinates or more. *)
Lemma findDistanceAlongRoute_scan (lat lon : Q) (gpxData : GPXData) :
  (2 <= length (coordinates gpxData))%nat ->
  exists i,
    (i + 1 < length (coordinates gpxData))%nat
    /\ findDistanceAlongRoute lat lon gpxData
       = length_before gpxData i
         + Haversine.calculateDistance
             (snd (coordinate_at gpxData i)) (fst (coordinate_at gpxData i))
             (snd (projection lat lon gpxData i)) (fst (projection lat lon gpxData i))
    /\ (forall j, (j + 1 < length (coordinates gpxData))%nat ->
          projection_distance lat lon gpxData i <= projection_distance lat lon gpxData j)
    /\ (forall j, (j < i)%nat ->
          projection_distance lat lon gpxData i < projection_distance lat lon gpxData j).
Proof.
  intros Two.
  destruct (closest_scan lat lon gpxData (length (coordinates gpxData) - 1))
    as (i & Hi & E & Min & First); [ lia | ].
  exists i. split; [ lia | ]. split; [ | split ].
  - unfold findDistanceAlongRoute.
    destruct (length (coordinates gpxData) =? 0)%nat eqn:Z;
      [ apply Nat.eqb_eq in Z; lia | ].
    rewrite E. reflexivity.
  - intros j Hj. apply Min. lia.
  - exact First.
Qed.

(** The distance along the route is never negative. *)
Lemma along_route_nonneg (lat lon : Q) (gpxData : GPXData) :
  0 <= findDistanceAlongRoute lat lon gpxData.
Proof.
  destruct (le_lt_dec 2 (length (coordinates gpxData))) as [Two | Few].
  - destruct (findDistanceAlongRoute_scan lat lon gpxData Two) as (i & _ & -> & _).
    pose proof (length_before_nonneg gpxData i).
    pose proof (haversine_range
                  (snd (coordinate_at gpxData i)) (fst (coordinate_at gpxData i))
                  (snd (projection lat lon gpxData i)) (fst (projection lat lon gpxData i))).
    lra.
  - unfold findDistanceAlongRoute.
    destruct (coordinates gpxData) as [| c [| c' cs]] eqn:C; cbn in Few; try lia.
    + cbn. lra.
    + cbn [length Nat.eqb Nat.sub seq fold_left closestSegmentIndex closestPointOnSegment
           fst snd].
      pose proof (haversine_range
                    (snd (coordinate_at gpxData 0)) (fst (coordinate_at gpxData 0)) 0 0).
      lra.
Qed.


(** The projection of the start of a segment on the segment is that start. *)
Lemma projection_of_start (a b : Q * Q) :
  (fst (getClosestPointOnSegment a a b) == fst a)%Q
  /\ (snd (getClosestPointOnSegment a a b) == snd a)%Q.
Proof.
  destruct a as [ax ay], b as [bx by_]. unfold getClosestPointOnSegment.
  destruct (JS.is_zero (bx - ax) && JS.is_zero (by_ - ay))%bool;
    [ split; reflexivity | ].
  cbn [fst snd].
  set (q := (((ax - ax) * (bx - ax) + (ay - ay) * (by_ - ay)) /
             ((bx - ax) * (bx - ax) + (by_ - ay) * (by_ - ay)))%Q).
  assert (q == 0)%Q as Hq.
  { assert ((ax - ax) * (bx - ax) + (ay - ay) * (by_ - ay) == 0)%Q as N by ring.
    unfold q, Qdiv. rewrite N. ring. }
  assert (JS.Math_max 0 (JS.Math_min 1 q) == 0)%Q as Ht.
  { destruct (Math_min_cases 1 q) as [[H E] | [H E]]; rewrite E.
    - rewrite Hq in H. exfalso. revert H. apply Qlt_not_le. reflexivity.
    - destruct (Math_max_cases 0 q) as [[H' E'] | [H' E']]; rewrite E';
        [ exact Hq | reflexivity ]. }
  split; rewrite Ht; ring.
Qed.

(** The scan started at the first vertex stays on the first segment. *)
Lemma along_route_start_zero (gpxData : GPXData) :
  (2 <= length (coordinates gpxData))%nat ->
  findDistanceAlongRoute
    (snd (coordinate_at gpxData 0)) (fst (coordinate_at gpxData 0)) gpxData = 0.
Proof.
  intros Two.
  set (lat := snd (coordinate_at gpxData 0)). set (lon := fst (coordinate_at gpxData 0)).
  assert ((lon, lat) = coordinate_at gpxData 0) as Start
      by (unfold lon, lat; now destruct (coordinate_at gpxData 0)).
  destruct (projection_of_start (coordinate_at gpxData 0) (coordinate_at gpxData (0 + 1)))
    as [Px Py].
  assert (Haversine.calculateDistance lat lon
            (snd (projection lat lon gpxData 0)) (fst (projection lat lon gpxData 0)) = 0)
    as Zero.
  { unfold projection. rewrite Start.
    apply haversine_zero; symmetry; assumption. }
  destruct (findDistanceAlongRoute_scan lat lon gpxData Two) as (i & Hi & E & Min & First).
  assert (i = 0)%nat as ->.
  { destruct i as [| i]; [ reflexivity | exfalso ].
    assert (0 < S i)%nat as P by lia. specialize (First 0%nat P).
    unfold projection_distance in First at 2. rewrite Zero in First.
    pose proof (haversine_range lat lon
                  (snd (projection lat lon gpxData (S i)))
                  (fst (projection lat lon gpxData (S i)))) as R.
    unfold projection_distance in First. lra. }
  rewrite E. unfold length_before. cbn [seq fold_left].
  fold lat. fold lon. rewrite Zero. lra.
Qed.

(** X20.  On a route of at least two coordinates, a point with the
    coordinates of the first vertex is at distance 0 along the route. *)
Theorem findDistanceAlongRoute_at_start (gpxData : GPXData) :
  (2 <= length (coordinates gpxData))%nat ->
  findDistanceAlongRoute
    (snd (coordinate_at gpxData 0)) (fst (coordinate_at gpxData 0)) gpxData = 0.
Proof.
  intros Two.
  set (lat := snd (coordinate_at gpxData 0)). set (lon := fst (coordinate_at gpxData 0)).
  assert ((lon, lat) = coordinate_at gpxData 0) as Start
      by (unfold lon, lat; now destruct (coordinate_at gpxData 0)).
  destruct (projection_of_start (coordinate_at gpxData 0) (coordinate_at gpxData (0 + 1)))
    as [Px Py].
  assert (Haversine.calculateDistance lat lon
            (snd (projection lat lon gpxData 0)) (fst (projection lat lon gpxData 0)) = 0)
    as Zero.
  { unfold projection. rewrite Start.
    apply haversine_zero; symmetry; assumption. }
  destruct (findDistanceAlongRoute_scan lat lon gpxData Two) as (i & Hi & E & Min & First).
  assert (i = 0)%nat as ->.
  { destruct i as [| i]; [ reflexivity | exfalso ].
    assert (0 < S i)%nat as P by lia. specialize (First 0%nat P).
    unfold projection_distance in First at 2. rewrite Zero in First.
    pose proof (haversine_range lat lon
                  (snd (projection lat lon gpxData (S i)))
                  (fst (projection lat lon gpxData (S i)))) as R.
    unfold projection_distance in First. lra. }
  rewrite E. unfold length_before. cbn [seq fold_left].
  fold lat. fold lon. rewrite Zero. lra.
Qed.

(** X18.  For a user standing on the first vertex of a route of at least two
    coordinates, [findCurrentPositionOnRoute] gives a position at distance 0
    along the route, and the distance of a water point from that position is
    the distance of the water point along the route (the route and the water
    point within a quarter turn of each other).  Without a position the
    distance is the one from the start that the water point carries. *)
Theorem distance_from_current_position (w : WaterPoint) (gpxData : GPXData) :
  (2 <= length (coordinates gpxData))%nat ->
  Domain.near_route (lat w) (lon w) gpxData = true ->
  Domain.compact_route gpxData = true ->
  calculateDistanceFromCurrentPosition w None gpxData = distanceFromStart w
  /\ exists position,
       findCurrentPositionOnRoute
         (snd (coordinate_at gpxData 0)) (fst (coordinate_at gpxData 0)) (Some gpxData)
       = Some position
       /\ distanceAlongRoute position = 0
       /\ calculateDistanceFromCurrentPosition w (Some position) gpxData
          = findDistanceAlongRoute (lat w) (lon w) gpxData.
Proof.
  intros Two _ _. split; [ reflexivity | ].
  unfold findCurrentPositionOnRoute.
  destruct (length (coordinates gpxData) =? 0)%nat eqn:Z;
    [ apply Nat.eqb_eq in Z; lia | ].
  eexists. split; [ reflexivity | ].
  cbn [distanceAlongRoute calculateDistanceFromCurrentPosition].
  rewrite (along_route_start_zero gpxData Two). split; [ reflexivity | ].
  rewrite Rminus_0_r. apply Rabs_pos_eq. apply along_route_nonneg.
Qed.

End AlongRoute.

(** ** The orchestration, continued *)

Section OrchestrationMore.

Import Types Overpass Rules Spec.

Variable numberToString : Q -> string.
Variable JSON_stringify_bounds : Bounds -> string.
Variable JSON_stringify : CacheManager.CacheEntry (list WaterPoint) -> string.
Variable JSON_parse : string -> option (CacheManager.CacheEntry (list WaterPoint)).

Lemma prefix_append (s t : string) : String.prefix s (s ++ t) = true.
Proof.
  induction s as [| c s IH]; [ now destruct t | ].
  change (String c s ++ t) with (String c (s ++ t)). cbn [String.prefix].
  destruct (ascii_dec c c); [ exact IH | congruence ].
Qed.

Lemma generateCacheKey_prefix (bounds : Bounds) (bufferDistance : Q) (suffix : string) :
  String.prefix CacheManager.CACHE_PREFIX
    (CacheManager.generateCacheKey numberToString bounds bufferDistance ++ suffix) = true.
Proof.
  unfold CacheManager.generateCacheKey. cbv zeta.
  match goal with
  | |- String.prefix _ ((CacheManager.CACHE_PREFIX ++ ?r) ++ _) = _ =>
      change ((CacheManager.CACHE_PREFIX ++ r) ++ suffix)
        with (CacheManager.CACHE_PREFIX ++ (r ++ suffix))
  end.
  apply prefix_append.
Qed.

(** What a cache miss followed by a successful fetch returns and stores. *)
Lemma findWaterPoints_fetched (fetch : string -> FetchResult)
    (localStorage : gmap string string) (now now' : Z)
    (gpxData : GPXData) (bufferDistance : Q) (filterPreset : string)
    (status : Z) (elements : option (list Element)) :
  fst (CacheManager.get (list WaterPoint) JSON_parse localStorage now
         (CacheManager.generateCacheKey numberToString (bounds gpxData) bufferDistance
            ++ "_" ++ filterPreset)) = None ->
  fetch (buildOverpassQuery numberToString gpxData bufferDistance
           (select_preset filterPreset))
  = Response true status (Body elements) ->
  findWaterPoints numberToString JSON_stringify_bounds JSON_stringify JSON_parse fetch
    localStorage now now' gpxData bufferDistance filterPreset
  = (sort (match elements with
           | Some es => process_elements es gpxData bufferDistance
                          (select_preset filterPreset)
           | None => []
           end),
     CacheManager.set (list WaterPoint) JSON_stringify_bounds JSON_stringify
       (snd (CacheManager.get (list WaterPoint) JSON_parse localStorage now
               (CacheManager.generateCacheKey numberToString (bounds gpxData) bufferDistance
                  ++ "_" ++ filterPreset)))
       now'
       (CacheManager.generateCacheKey numberToString (bounds gpxData) bufferDistance
          ++ "_" ++ filterPreset)
       (sort (match elements with
              | Some es => process_elements es gpxData bufferDistance
                             (select_preset filterPreset)
              | None => []
              end))
       (bounds gpxData) bufferDistance).
Proof.
  intros Miss Fetched. unfold findWaterPoints.
  destruct (CacheManager.get _ _ _ _ _) as [cached storage]. cbn in Miss. subst cached.
  rewrite Fetched. reflexivity.
Qed.

(** X21.  After a cache miss and a successful fetch of elements within a
    quarter turn of the vertices of the route, [findWaterPoints] returns its
    water points in ascending order of distance from the start; each of them
    was made from a node of the response and is within the buffer of a
    vertex of the route; and the list is stored under the cache key, which
    is in the namespace of the cache. *)
Theorem findWaterPoints_success (fetch : string -> FetchResult)
    (localStorage : gmap string string) (now now' : Z)
    (gpxData : GPXData) (bufferDistance : Q) (filterPreset : string)
    (status : Z) (elements : list Element) :
  fst (CacheManager.get (list WaterPoint) JSON_parse localStorage now
         (CacheManager.generateCacheKey numberToString (bounds gpxData) bufferDistance
            ++ "_" ++ filterPreset)) = None ->
  fetch (buildOverpassQuery numberToString gpxData bufferDistance
           (select_preset filterPreset))
  = Response true status (Body (Some elements)) ->
  Domain.near_nodes elements gpxData = true ->
  StronglySorted start_le
    (fst (findWaterPoints numberToString JSON_stringify_bounds JSON_stringify JSON_parse
            fetch localStorage now now' gpxData bufferDistance filterPreset))
  /\ List.Forall
       (fun w =>
          from_node elements gpxData bufferDistance (select_preset filterPreset) w
          /\ exists d, distanceFromRoute w = JS.Finite d /\ (d <= Q2R bufferDistance)%R)
       (fst (findWaterPoints numberToString JSON_stringify_bounds JSON_stringify JSON_parse
               fetch localStorage now now' gpxData bufferDistance filterPreset))
  /\ snd (findWaterPoints numberToString JSON_stringify_bounds JSON_stringify JSON_parse
            fetch localStorage now now' gpxData bufferDistance filterPreset)
       !! (CacheManager.generateCacheKey numberToString (bounds gpxData) bufferDistance
             ++ "_" ++ filterPreset)
     = Some (JSON_stringify
               {| CacheManager.data :=
                    fst (findWaterPoints numberToString JSON_stringify_bounds
                           JSON_stringify JSON_parse fetch localStorage now now'
                           gpxData bufferDistance filterPreset);
                  CacheManager.timestamp := now';
                  CacheManager.entry_bounds := JSON_stringify_bounds (bounds gpxData);
                  CacheManager.entry_bufferDistance := bufferDistance |})
  /\ String.prefix CacheManager.CACHE_PREFIX
       (CacheManager.generateCacheKey numberToString (bounds gpxData) bufferDistance
          ++ "_" ++ filterPreset) = true.
Proof.
  intros Miss Fetched _.
  rewrite (findWaterPoints_fetched fetch _ _ _ _ _ _ _ _ Miss Fetched). cbn [fst snd].
  split; [ apply sort_sorted | ]. split; [ | split ].
  - apply List.Forall_forall. intros w Hw.
    apply (Permutation_in _ (sort_Permutation _)) in Hw.
    apply process_elements_from_node in Hw.
    split; [ exact Hw | ].
    destruct Hw as (e & la & lo & _ & _ & _ & _ & _ & _ & P).
    apply processWaterPoint_Some in P as (_ & _ & _ & D & G).
    destruct (distanceFromRoute w) as [| d]; [ discriminate | ].
    exists d. split; [ reflexivity | ]. cbn in G.
    destruct (Rlt_dec _ _); [ discriminate | lra ].
  - unfold CacheManager.set. apply lookup_insert_eq.
  - apply generateCacheKey_prefix.
Qed.


(** X23.  [clear] forgets every list [findWaterPoints] has stored: after it,
    the key of any route, buffer and filter is a cache miss. *)
Theorem clear_forgets_water_points
    (localStorage : gmap string string) (now : Z)
    (gpxData : GPXData) (bufferDistance : Q) (filterPreset : string) :
  CacheManager.get (list WaterPoint) JSON_parse (CacheManager.clear localStorage) now
    (CacheManager.generateCacheKey numberToString (bounds gpxData) bufferDistance
       ++ "_" ++ filterPreset)
  = (None, CacheManager.clear localStorage).
Proof.
  unfold CacheManager.get. rewrite clear_lookup, generateCacheKey_prefix. reflexivity.
Qed.

End OrchestrationMore.

(** ** The consumers of the water points *)

Section DrawerProperties.

Import Types Drawer Rules.
Local Open Scope R_scope.

Variable key : WaterPoint -> R.

Lemma insert_by_Permutation (a : WaterPoint) (l : list WaterPoint) :
  Permutation (insert_by key a l) (a :: l).
Proof.
  induction l as [| b l IH]; cbn; [ reflexivity | ].
  destruct (Rle_dec _ _); [ reflexivity | ].
  rewrite IH. apply perm_swap.
Qed.

Lemma sort_by_Permutation (l : list WaterPoint) : Permutation (sort_by key l) l.
Proof.
  induction l as [| a l IH]; cbn; [ reflexivity | ].
  rewrite insert_by_Permutation. now constructor.
Qed.

Lemma insert_by_sorted (a : WaterPoint) (l : list WaterPoint) :
  StronglySorted (key_le key) l -> StronglySorted (key_le key) (insert_by key a l).
Proof.
  induction 1 as [| b l Sl IH Hb]; cbn.
  - repeat constructor.
  - destruct (Rle_dec _ _) as [Le | Gt].
    + constructor; [ now constructor | ].
      constructor; [ exact Le | ].
      eapply List.Forall_impl; [ | exact Hb ].
      intros c Hc. unfold key_le in *. lra.
    + constructor; [ exact IH | ].
      apply List.Forall_forall. intros c Hc.
      apply (Permutation_in _ (insert_by_Permutation a l)) in Hc.
      destruct Hc as [<- | Hc]; [ unfold key_le; lra | ].
      apply (proj1 (List.Forall_forall _ _) Hb c Hc).
Qed.

Lemma sort_by_sorted (l : list WaterPoint) : StronglySorted (key_le key) (sort_by key l).
Proof.
  induction l as [| a l IH]; cbn; [ constructor | now apply insert_by_sorted ].
Qed.

Lemma sort_by_of_sorted (l : list WaterPoint) :
  StronglySorted (key_le key) l -> sort_by key l = l.
Proof.
  induction 1 as [| a l Sl IH Ha]; cbn; [ reflexivity | ].
  fold (sort_by key l). rewrite IH. destruct l as [| b l]; [ reflexivity | ].
  cbn. inversion Ha as [| ? ? Hab _]; subst.
  destruct (Rle_dec _ _) as [_ | N]; [ reflexivity | contradiction ].
Qed.

End DrawerProperties.

Section DrawerList.

Import Types Drawer Rules.

(** X24.  The list the drawer shows has the water points it was given, in
    ascending order of distance from the current position, or from the start
    when there is no position; without a position, a list that is already in
    the order of [findWaterPoints] is shown as it is. *)
Theorem sortedWaterPoints_order (gpxData : GPXData) (waterPoints : list WaterPoint)
    (currentPosition : option CurrentPosition) :
  Permutation (sortedWaterPoints (Some gpxData) waterPoints currentPosition) waterPoints
  /\ StronglySorted (key_le (sort_key currentPosition gpxData))
       (sortedWaterPoints (Some gpxData) waterPoints currentPosition)
  /\ (StronglySorted start_le waterPoints ->
      sortedWaterPoints (Some gpxData) waterPoints None = waterPoints).
Proof.
  unfold sortedWaterPoints.
  split; [ apply sort_by_Permutation | split; [ apply sort_by_sorted | ] ].
  intros H. apply sort_by_of_sorted. exact H.
Qed.

End DrawerList.

Section Labels.

Import Types MapUtils.

Lemma join_not_empty (sep first : string) (rest : list string) :
  first <> "" -> Overpass.join sep (first :: rest) <> "".
Proof.
  intros H. destruct first as [| c s]; [ congruence | ].
  destruct rest; cbn; discriminate.
Qed.

(** X25.  The name and the information line of a water point are never empty;
    the name is the [name] tag when that tag is present and not empty. *)
Theorem labels_not_empty (point : WaterPoint) :
  getWaterPointName point <> ""
  /\ getWaterPointInfo point <> ""
  /\ (forall c s, tags point !! "name" = Some (String c s) ->
        getWaterPointName point = String c s).
Proof.
  split; [ | split ].
  - unfold getWaterPointName, first_truthy.
    destruct (tags point !! "name") as [[| c s] |];
      destruct (tags point !! "name:en") as [[| c' s'] |];
      try discriminate; destruct (type point); vm_compute; discriminate.
  - unfold getWaterPointInfo. cbv zeta.
    destruct (tags point !! "access") as [[| c s] |]; cbn [app];
      try (apply join_not_empty; discriminate);
      destruct (Overpass.tag_is (tags point) "drinking_water" "yes"); cbn [app];
      try (apply join_not_empty; discriminate);
      destruct (Overpass.tag_is (tags point) "drinking_water" "no"); cbn [app];
      try (apply join_not_empty; discriminate);
      destruct (Overpass.tag_is (tags point) "fee" "yes"); cbn [app];
      try (apply join_not_empty; discriminate); discriminate.
  - intros c s H. unfold getWaterPointName, first_truthy. now rewrite H.
Qed.

End Labels.

(** ** Witnesses of the properties beyond the claims *)

Lemma calculateDistance_range_witness :
  (0 <= Haversine.calculateDistance 48 2 48 2.05 < 6371000 * PI)%R.
Proof.
  apply (calculateDistance_range 48 2 48 2.05). vm_compute. reflexivity.
Defined.

Lemma calculateDistance_symmetric_witness :
  Haversine.calculateDistance 48 2 (96 # 2) (4 # 2) = 0%R.
Proof.
  apply (proj2 (calculateDistance_symmetric 48 2 (96 # 2) (4 # 2))); reflexivity.
Defined.

Lemma parseGPX_fails_iff_witness :
  GpxParser.parseGPX MoreExamples.shadowed_route = None.
Proof.
  apply (proj2 (parseGPX_fails_iff MoreExamples.shadowed_route)).
  right. intros p [<- | []]. left. reflexivity.
Defined.

Lemma track_points_shadow_route_points_witness :
  GpxParser.parseGPX (Order.with_rtepts MoreExamples.shadowed_route [])
  = GpxParser.parseGPX MoreExamples.shadowed_route.
Proof.
  apply (track_points_shadow_route_points MoreExamples.shadowed_route []).
  discriminate.
Defined.

Lemma three_and_one_parses :
  exists r, GpxParser.parseGPX Examples.three_and_one = Some r.
Proof.
  rewrite parseGPX_retained. cbn. eexists. reflexivity.
Qed.

Lemma parseGPX_bounds_tight_witness :
  exists r, GpxParser.parseGPX Examples.three_and_one = Some r
            /\ In (GpxParser.north (GpxParser.bounds r))
                 (List.map snd (GpxParser.coordinates r)).
Proof.
  destruct three_and_one_parses as (r & P). exists r. split; [ exact P | ].
  apply (parseGPX_bounds_tight Examples.three_and_one r P).
Defined.

Lemma parseGPX_totalDistance_witness :
  exists r d, GpxParser.parseGPX Examples.three_and_one = Some r
              /\ GpxParser.totalDistance r = GpxParser.Meters d /\ (0 <= d)%R.
Proof.
  destruct three_and_one_parses as (r & P).
  destruct (proj1 (proj2 (parseGPX_totalDistance Examples.three_and_one r P)))
    as (d & E & Pos).
  - apply parseGPX_Some in P as (_ & -> & _). vm_compute. reflexivity.
  - exists r, d. auto.
Defined.

Lemma clear_removes_namespace_only_witness :
  CacheManager.clear MoreExamples.mixed_storage !! "theme"
  = MoreExamples.mixed_storage !! "theme".
Proof.
  apply (proj2 (clear_removes_namespace_only MoreExamples.mixed_storage "theme")).
  vm_compute. reflexivity.
Defined.

Lemma get_sound_witness :
  CacheManager.get string Examples.text_parse ∅ 0 "geodrink_cache_k"
  = (None, ∅).
Proof.
  apply (proj1 (proj2 (get_sound string Examples.text_parse ∅ 0 "geodrink_cache_k"))).
  apply lookup_empty.
Defined.

Lemma set_overwrites_witness :
  CacheManager.set string Examples.bounds_text Examples.text_stringify
    MoreExamples.mixed_storage 1000 "geodrink_cache_k" "payload" Examples.route_bounds 100
    !! "theme"
  = MoreExamples.mixed_storage !! "theme".
Proof.
  apply (proj1 (proj2 (set_overwrites string Examples.bounds_text Examples.text_stringify
                         MoreExamples.mixed_storage 1000 1000 "geodrink_cache_k"
                         "payload" "payload" Examples.route_bounds Examples.route_bounds
                         100 100))).
  discriminate.
Defined.

Lemma same_rounding_close_witness :
  (48.00001 - 48.00004 < (1 # 10000) /\ 48.00004 - 48.00001 < (1 # 10000))%Q.
Proof.
  apply (same_rounding_close 48.00001 48.00004).
  repeat split; vm_compute; reflexivity.
Defined.

Lemma sort_by_distance_from_start_witness :
  Overpass.sort [MoreExamples.start_point] = [MoreExamples.start_point].
Proof.
  apply (proj2 (proj2 (sort_by_distance_from_start [MoreExamples.start_point]))).
  repeat constructor.
Defined.

Lemma calculateMinDistanceFromRoute_is_vertex_minimum_witness :
  exists d,
    Overpass.calculateMinDistanceFromRoute 48.00005 2.05 Examples.route = JS.Finite d
    /\ (forall c, In c (Types.coordinates Examples.route) ->
          (d <= Haversine.calculateDistance (snd c) (fst c) 48.00005 2.05)%R)
    /\ (exists c, In c (Types.coordinates Examples.route)
                  /\ d = Haversine.calculateDistance (snd c) (fst c) 48.00005 2.05).
Proof.
  apply (proj2 (calculateMinDistanceFromRoute_is_vertex_minimum 48.00005 2.05 Examples.route)).
  - discriminate.
  - vm_compute. reflexivity.
Defined.

Lemma accepted_point_satisfies_preset_witness :
  exists w d,
    Overpass.processWaterPoint
      {| Overpass.node_lat := 48; Overpass.node_lon := 2;
         Overpass.node_tags := Some Examples.potable_tags; Overpass.node_id := 8 |}
      Examples.route 100 Overpass.potable_only = Some w
    /\ Types.distanceFromRoute w = JS.Finite d
    /\ (0 <= d <= Q2R 100)%R.
Proof.
  destruct start_node_accepted as (w & P & _).
  destruct (accepted_point_satisfies_preset
              {| Overpass.node_lat := 48; Overpass.node_lon := 2;
                 Overpass.node_tags := Some Examples.potable_tags; Overpass.node_id := 8 |}
              Examples.route 100 Overpass.potable_only w)
    as (_ & (d & E & B & _) & _).
  - vm_compute. reflexivity.
  - exact P.
  - exists w, d. auto.
Defined.

(** An exclusion named after an inherited member matches no record; one
    named after an ordinary absent tag matches. *)
Lemma inherited_key_not_matched :
  Overpass.matches_exclude ∅ "constructor" = false
  /\ Overpass.matches_exclude ∅ "fee" = true
  /\ Overpass.matches_exclude {["constructor" := "yes"]} "constructor=yes" = true.
Proof. repeat split; vm_compute; reflexivity. Qed.

Lemma exclusion_matches_witness :
  Overpass.matches_exclude Examples.potable_tags ("fee" ++ "=" ++ "yes") = true
  <-> Examples.potable_tags !! "fee" = Some "yes".
Proof.
  apply (proj1 (exclusion_matches Examples.potable_tags "fee" "yes" eq_refl eq_refl)).
Defined.

Lemma distance_from_current_position_witness :
  exists position,
    Overpass.findCurrentPositionOnRoute 48 2 (Some Examples.route) = Some position
    /\ Types.distanceAlongRoute position = 0%R
    /\ Overpass.calculateDistanceFromCurrentPosition MoreExamples.start_point
         (Some position) Examples.route
       = Overpass.findDistanceAlongRoute 48 2 Examples.route.
Proof.
  apply (distance_from_current_position MoreExamples.start_point Examples.route).
  - cbn. lia.
  - vm_compute. reflexivity.
  - vm_compute. reflexivity.
Defined.


Lemma findDistanceAlongRoute_at_start_witness :
  Overpass.findDistanceAlongRoute 48 2 Examples.route = 0%R.
Proof.
  apply (findDistanceAlongRoute_at_start Examples.route). cbn. lia.
Defined.

Lemma findWaterPoints_success_witness :
  StronglySorted Rules.start_le (fst MoreExamples.first_call).
Proof.
  destruct (findWaterPoints_success Examples.integerToString Examples.bounds_text
              Examples.blank_stringify Examples.blank_parse Examples.online
              ∅ 0 1000 Examples.route 100 "potable-only" 200
              [Examples.zero_latitude_node; Examples.start_node]) as [Sorted _].
  - reflexivity.
  - reflexivity.
  - vm_compute. reflexivity.
  - exact Sorted.
Defined.


Lemma sortedWaterPoints_order_witness :
  Drawer.sortedWaterPoints (Some Examples.route) [MoreExamples.start_point] None
  = [MoreExamples.start_point].
Proof.
  apply (proj2 (proj2 (sortedWaterPoints_order Examples.route
                         [MoreExamples.start_point] None))).
  repeat constructor.
Defined.

Lemma select_preset_fallback_witness :
  Overpass.select_preset "nowhere" = Overpass.potable_only.
Proof.
  destruct (proj2 (select_preset_fallback "nowhere")) as [E | [E _]].
  - vm_compute in E. discriminate.
  - exact E.
Defined.

Lemma labels_not_empty_witness :
  MapUtils.getWaterPointName MoreExamples.named_point = "Source".
Proof.
  apply (proj2 (proj2 (labels_not_empty MoreExamples.named_point)) "S"%char "ource").
  vm_compute. reflexivity.
Defined.
